(** * Task store of the to-do manager: a shallow embedding of [useTasks]

    The hook [useTasks] (src/hooks/useTasks.ts) owns three pieces of React
    state: the task list (kept in a [useLocalStorage] slot), the task being
    edited and the search query.  Its operations are embedded as functions on
    a [Store] record.  Every [new Date()], [Date.now()] and [Math.random()]
    of the source is an observation of the outside world; the embedding
    threads a [World] that counts the observations made so far, and the
    n-th observation is given by the oracles [clock] and [random]. *)

From Stdlib Require Import ZArith NArith List String Ascii Bool Lia.
Import ListNotations.

Local Open Scope string_scope.
Local Open Scope list_scope.

(** ** JavaScript strings

    Strings are sequences of code units below 256 (Latin-1); the three string
    methods the hook calls are given for that range. *)
Module JsString.

Definition isWhiteSpace (c : ascii) : bool :=
  let n := nat_of_ascii c in
  ((9 <=? n) && (n <=? 13) || (n =? 32) || (n =? 160))%nat.

Fixpoint trimStart (s : string) : string :=
  match s with
  | EmptyString => EmptyString
  | String c s' => if isWhiteSpace c then trimStart s' else s
  end.

Fixpoint trimEnd (s : string) : string :=
  match s with
  | EmptyString => EmptyString
  | String c s' =>
      match trimEnd s' with
      | EmptyString => if isWhiteSpace c then EmptyString else String c EmptyString
      | r => String c r
      end
  end.

(** [String.prototype.trim] *)
Definition trim (s : string) : string := trimEnd (trimStart s).

(** Truthiness of a string: only the empty string is falsy. *)
Definition truthy (s : string) : bool :=
  match s with EmptyString => false | String _ _ => true end.

Definition lowerChar (c : ascii) : ascii :=
  let n := nat_of_ascii c in
  if ((65 <=? n) && (n <=? 90))%nat then ascii_of_nat (n + 32)
  else if ((192 <=? n) && (n <=? 222) && negb (n =? 215))%nat
       then ascii_of_nat (n + 32)
       else c.

(** [String.prototype.toLowerCase] *)
Fixpoint toLowerCase (s : string) : string :=
  match s with
  | EmptyString => EmptyString
  | String c s' => String (lowerChar c) (toLowerCase s')
  end.

(** [s.includes(q)]: [q] occurs in [s] at some position. *)
Fixpoint includes (s q : string) : bool :=
  if String.prefix q s then true
  else match s with
       | EmptyString => false
       | String _ s' => includes s' q
       end.

Definition digit36 (d : N) : ascii :=
  if (d <? 10)%N then ascii_of_N (48 + d) else ascii_of_N (87 + d).

Fixpoint toString36_digits (fuel : nat) (n : N) (acc : string) : string :=
  match fuel with
  | O => acc
  | S fuel' =>
      let acc' := String (digit36 (n mod 36)) acc in
      if (n / 36 =? 0)%N then acc' else toString36_digits fuel' (n / 36) acc'
  end.

(** [Number.prototype.toString(36)] on an integer; the number of binary
    digits bounds the number of base-36 digits. *)
Definition toString36 (z : Z) : string :=
  match z with
  | Z0 => "0"
  | Zpos p => toString36_digits (N.to_nat (N.size (Npos p))) (Npos p) ""
  | Zneg p =>
      ("-" ++ toString36_digits (N.to_nat (N.size (Npos p))) (Npos p) "")%string
  end.

End JsString.

(** ** Data model (types/Task.ts) *)

Inductive Priority := high | medium | low.

(** The value found in a timestamp field at run time.  The interface says
    [Date]; the hook allows for the ISO-8601 text of the instant as well,
    which is what a plain [JSON.parse] leaves in such a field, and wraps due
    dates in [new Date(...)] before comparing them.  Both carry the instant
    in milliseconds since the epoch; the text is kept symbolic. *)
Inductive DateValue :=
| DateObj (ms : Z)
| IsoString (ms : Z).

Definition getTime (d : DateValue) : Z :=
  match d with DateObj ms => ms | IsoString ms => ms end.

(** [new Date(d)] for [d] a [Date] or an ISO string. *)
Definition newDateOf (d : DateValue) : DateValue := DateObj (getTime d).

Record Task := mkTask {
  id : string;
  title : string;
  description : option string;
  priority : Priority;
  completed : bool;
  dueDate : option DateValue;
  createdAt : DateValue;
  updatedAt : DateValue
}.

Record TaskFormData := mkForm {
  formTitle : string;
  formDescription : option string;
  formPriority : Priority;
  formDueDate : option DateValue
}.

Record Store := mkStore {
  tasks : list Task;
  editingTask : option Task;
  searchQuery : string
}.

Definition emptyStore : Store := mkStore [] None "".

(** ** The outside world *)

Record World := mkWorld {
  clockReads : nat;   (* how many times the clock has been read *)
  randomDraws : nat   (* how many times Math.random has been called *)
}.

Definition M (A : Type) : Type := World -> A * World.

Definition ret {A} (a : A) : M A := fun w => (a, w).

Definition bind {A B} (m : M A) (k : A -> M B) : M B :=
  fun w => let (a, w') := m w in k a w'.

Notation "x <- m ;; k" := (bind m (fun x => k))
  (at level 61, m at next level, right associativity).

Fixpoint mapM {A B} (f : A -> M B) (l : list A) : M (list B) :=
  match l with
  | [] => ret []
  | a :: l' => b <- f a ;; bs <- mapM f l' ;; ret (b :: bs)
  end.

(** Thrown exceptions; the hook can only meet a [TypeError]. *)
Inductive result (A : Type) :=
| Ok (a : A)
| Throw_TypeError.
Arguments Ok {A} a.
Arguments Throw_TypeError {A}.

Section Hook.

(** [clock n] is the n-th reading of the system clock, in milliseconds;
    [random n] is the text of [Math.random().toString(36).substr(2)] for the
    n-th draw. *)
Variable clock : nat -> Z.
Variable random : nat -> string.

(** [Date.now()] *)
Definition dateNow : M Z :=
  fun w => (clock (clockReads w), mkWorld (S (clockReads w)) (randomDraws w)).

(** [new Date()] *)
Definition newDate : M DateValue := ms <- dateNow ;; ret (DateObj ms).

Definition mathRandom36 : M string :=
  fun w => (random (randomDraws w), mkWorld (clockReads w) (S (randomDraws w))).

Definition generateId : M string :=
  t <- dateNow ;;
  r <- mathRandom36 ;;
  ret (JsString.toString36 t ++ r)%string.

Definition addTask (taskData : TaskFormData) (s : Store) : M Store :=
  i <- generateId ;;
  c <- newDate ;;
  u <- newDate ;;
  let newTask :=
    {| id := i;
       title := formTitle taskData;
       description := formDescription taskData;
       priority := formPriority taskData;
       completed := false;
       dueDate := formDueDate taskData;
       createdAt := c;
       updatedAt := u |} in
  ret (mkStore (tasks s ++ [newTask]) (editingTask s) (searchQuery s)).

Definition editOne (editing : Task) (taskData : TaskFormData) (task : Task)
  : M Task :=
  if String.eqb (id task) (id editing)
  then u <- newDate ;;
       ret {| id := id task;
              title := formTitle taskData;
              description := formDescription taskData;
              priority := formPriority taskData;
              completed := completed task;
              dueDate := formDueDate taskData;
              createdAt := createdAt task;
              updatedAt := u |}
  else ret task.

Definition editTask (taskData : TaskFormData) (s : Store) : M Store :=
  match editingTask s with
  | None => ret s
  | Some editing =>
      ts <- mapM (editOne editing taskData) (tasks s) ;;
      ret (mkStore ts None (searchQuery s))
  end.

Definition deleteTask (taskId : string) (s : Store) : Store :=
  let ts := filter (fun task => negb (String.eqb (id task) taskId)) (tasks s) in
  match editingTask s with
  | Some e => if String.eqb (id e) taskId
              then mkStore ts None (searchQuery s)
              else mkStore ts (editingTask s) (searchQuery s)
  | None => mkStore ts (editingTask s) (searchQuery s)
  end.

Definition toggleOne (taskId : string) (task : Task) : M Task :=
  if String.eqb (id task) taskId
  then u <- newDate ;;
       ret {| id := id task;
              title := title task;
              description := description task;
              priority := priority task;
              completed := negb (completed task);
              dueDate := dueDate task;
              createdAt := createdAt task;
              updatedAt := u |}
  else ret task.

Definition toggleTaskComplete (taskId : string) (s : Store) : M Store :=
  ts <- mapM (toggleOne taskId) (tasks s) ;;
  ret (mkStore ts (editingTask s) (searchQuery s)).

Definition startEditingTask (task : Task) (s : Store) : Store :=
  mkStore (tasks s) (Some task) (searchQuery s).

Definition cancelEditing (s : Store) : Store :=
  mkStore (tasks s) None (searchQuery s).

Definition clearAllTasks (s : Store) : Store := mkStore [] None "".

Definition setSearchQuery (query : string) (s : Store) : Store :=
  mkStore (tasks s) (editingTask s) query.

(** *** Derived views *)

(** The callback of [tasks.filter] in [filteredTasks].  [||] evaluates its
    right operand only when the left one is false, and calling
    [toLowerCase] on [undefined] throws. *)
Definition matchesQuery (query : string) (task : Task) : result bool :=
  if JsString.includes (JsString.toLowerCase (title task)) query
  then Ok true
  else match description task with
       | None => Throw_TypeError
       | Some d => Ok (JsString.includes (JsString.toLowerCase d) query)
       end.

(** [Array.prototype.filter] with a callback that may throw: the first
    exception leaves the loop. *)
Fixpoint filterR {A} (p : A -> result bool) (l : list A) : result (list A) :=
  match l with
  | [] => Ok []
  | a :: l' =>
      match p a with
      | Throw_TypeError => Throw_TypeError
      | Ok b =>
          match filterR p l' with
          | Throw_TypeError => Throw_TypeError
          | Ok r => Ok (if b then a :: r else r)
          end
      end
  end.

Definition filteredTasks (s : Store) : result (list Task) :=
  if negb (JsString.truthy (JsString.trim (searchQuery s)))
  then Ok (tasks s)
  else
    let query := JsString.toLowerCase (searchQuery s) in
    filterR (matchesQuery query) (tasks s).

Fixpoint filterM {A} (p : A -> M bool) (l : list A) : M (list A) :=
  match l with
  | [] => ret []
  | a :: l' =>
      b <- p a ;;
      r <- filterM p l' ;;
      ret (if b then a :: r else r)
  end.

(** The callback of the [overdue] filter in [taskStats]. *)
Definition overdueNow (task : Task) : M bool :=
  match dueDate task with
  | None => ret false
  | Some d =>
      if completed task then ret false
      else now <- newDate ;;
           ret (getTime (newDateOf d) <? getTime now)%Z
  end.

Record TaskStats := mkStats {
  total : Z;
  completedCount : Z;
  pending : Z;
  overdue : Z
}.

(** The function that [useMemo] is given for [taskStats]: what the view is
    when it is computed.  When that happens is [useMemoTaskStats] below. *)
Definition taskStats (s : Store) : M TaskStats :=
  let total := Z.of_nat (List.length (tasks s)) in
  let done := Z.of_nat (List.length (filter completed (tasks s))) in
  let pending := (total - done)%Z in
  od <- filterM overdueNow (tasks s) ;;
  ret (mkStats total done pending (Z.of_nat (List.length od))).

(** *** Sessions *)

Inductive Op :=
| OpAddTask (taskData : TaskFormData)
| OpEditTask (taskData : TaskFormData)
| OpDeleteTask (taskId : string)
| OpToggleTaskComplete (taskId : string)
| OpStartEditingTask (task : Task)
| OpCancelEditing
| OpClearAllTasks
| OpSetSearchQuery (query : string).

Definition step (op : Op) (s : Store) : M Store :=
  match op with
  | OpAddTask d => addTask d s
  | OpEditTask d => editTask d s
  | OpDeleteTask i => ret (deleteTask i s)
  | OpToggleTaskComplete i => toggleTaskComplete i s
  | OpStartEditingTask t => ret (startEditingTask t s)
  | OpCancelEditing => ret (cancelEditing s)
  | OpClearAllTasks => ret (clearAllTasks s)
  | OpSetSearchQuery q => ret (setSearchQuery q s)
  end.

(** A session replays the operations the user interface invoked, in order. *)
Fixpoint run (ops : list Op) (s : Store) : M Store :=
  match ops with
  | [] => ret s
  | op :: ops' => s' <- step op s ;; run ops' s'
  end.

(** The states a session can be in, starting from the empty store at any
    moment of the world. *)
Inductive reachable : Store -> World -> Prop :=
| reachable_init : forall w, reachable emptyStore w
| reachable_step : forall s w op s' w',
    reachable s w -> step op s w = (s', w') -> reachable s' w'.

(** *** Renders: [useMemo(..., [tasks])]

    The hook computes [taskStats] inside [useMemo] with [tasks] as its only
    dependency: a render runs the function when the array held in [tasks] is
    not the one of the previous computation, and returns the value kept from
    that computation otherwise.  Arrays are compared by identity; every
    [setTasks] installs a new array, which [tasksRef] counts. *)

Record StatsMemo := mkStatsMemo {
  memoDeps : nat;          (* the array the value was computed from *)
  memoValue : TaskStats
}.

Record Instance := mkInstance {
  current : Store;
  tasksRef : nat;
  statsMemo : option StatsMemo
}.

Definition recomputeTaskStats (h : Instance) : M Instance :=
  st <- taskStats (current h) ;;
  ret (mkInstance (current h) (tasksRef h)
                  (Some (mkStatsMemo (tasksRef h) st))).

Definition useMemoTaskStats (h : Instance) : M Instance :=
  match statsMemo h with
  | Some m =>
      if Nat.eqb (memoDeps m) (tasksRef h) then ret h
      else recomputeTaskStats h
  | None => recomputeTaskStats h
  end.








End Hook.

(** ** Durable Store Adapter ([useLocalStorage])

    The hook keeps [tasks] in [useLocalStorage<Task[]>('tasks', [])].  The
    adapter's own file is described by its tests and by the specification;
    what it stores is what [JSON.stringify] makes of the task list.  Every
    [setTasks] also writes the new list with [persistTasks]; the outcome of
    that write never feeds back into the state held in memory, which is why
    the operations of the hook are given on [Store] alone. *)
Module DurableStore.

#[local] Set Warnings "-register-all".

(** JSON documents.  [JIsoDate ms] is the JSON string holding the ISO-8601
    text of the instant [ms], which is what [Date.prototype.toJSON] emits;
    its characters are kept symbolic. *)
Inductive json :=
| JNull
| JBool (b : bool)
| JNumber (n : Z)
| JString (s : string)
| JIsoDate (ms : Z)
| JArray (items : list json)
| JObject (members : list (string * json)).

(** What a slot of the browser's storage holds: text that [JSON.parse]
    accepts, standing for the document it denotes, or text it rejects. *)
Inductive StoredText :=
| JsonText (doc : json)
| NotJson (raw : string).

(** The browser's storage, with the condition of its two primitives:
    [getItem] may throw (storage disabled) and [setItem] may throw (quota
    exceeded). *)
Record LocalStorage := mkLocalStorage {
  items : list (string * StoredText);
  getItemThrows : bool;
  setItemThrows : bool
}.

Fixpoint lookupItem (key : string) (l : list (string * StoredText))
  : option StoredText :=
  match l with
  | [] => None
  | (k, v) :: l' => if String.eqb k key then Some v else lookupItem key l'
  end.

Definition removeItem (key : string) (l : list (string * StoredText))
  : list (string * StoredText) :=
  filter (fun kv => negb (String.eqb (fst kv) key)) l.

(** Modelled from the spec: [read] of the adapter, whose source file
    (hooks/useLocalStorage.ts) is not available.  It fetches the raw text for
    [key]; if the text is absent, the read primitive throws, or the text is
    not valid JSON, it returns the caller's default value. *)
Definition read (ls : LocalStorage) (key : string) (defaultValue : json) : json :=
  if getItemThrows ls then defaultValue
  else match lookupItem key (items ls) with
       | None => defaultValue
       | Some (NotJson _) => defaultValue
       | Some (JsonText doc) => doc
       end.

(** Modelled from the spec: [write] of the adapter, whose source file
    (hooks/useLocalStorage.ts) is not available.  It stores the JSON text of
    [value] under [key]; a failure of the write primitive is swallowed and
    the storage is left as it was. *)
Definition write (ls : LocalStorage) (key : string) (value : json) : LocalStorage :=
  if setItemThrows ls then ls
  else mkLocalStorage ((key, JsonText value) :: removeItem key (items ls))
                      (getItemThrows ls) (setItemThrows ls).

(** *** [JSON.stringify] on tasks *)

Definition priorityName (p : Priority) : string :=
  match p with high => "high" | medium => "medium" | low => "low" end.

(** Modelled from the spec: the serialisation of a timestamp by the adapter
    (hooks/useLocalStorage.ts, not available), which stores [dueDate],
    [createdAt] and [updatedAt] as timestamps convertible to and from a
    point in time: the JSON text of the instant. *)
Definition dateToJson (d : DateValue) : json := JIsoDate (getTime d).

(** A property whose value is [undefined] is left out. *)
Definition optionalMember (key : string) (v : option json)
  : list (string * json) :=
  match v with
  | None => []
  | Some j => [(key, j)]
  end.

(** Modelled from the spec: the JSON object that the adapter
    (hooks/useLocalStorage.ts, not available) stores for a task, one member
    per field that is present. *)
Definition taskToJson (t : Task) : json :=
  JObject
    ([("id", JString (id t)); ("title", JString (title t))]
     ++ optionalMember "description" (option_map JString (description t))
     ++ [("priority", JString (priorityName (priority t)));
         ("completed", JBool (completed t))]
     ++ optionalMember "dueDate" (option_map dateToJson (dueDate t))
     ++ [("createdAt", dateToJson (createdAt t));
         ("updatedAt", dateToJson (updatedAt t))]).

(** Modelled from the spec: the value under the key "tasks" is a JSON
    array of task objects. *)
Definition stringifyTasks (ts : list Task) : json := JArray (map taskToJson ts).

(** *** Decoding a stored document into tasks

    The specification asks for a structured decode at the persistence
    boundary: arbitrary JSON in, typed tasks out, and the default on any
    failure.  [asTasks] is [None] when the document is not an array of
    objects with the fields of [Task]. *)

Fixpoint member (key : string) (o : list (string * json)) : option json :=
  match o with
  | [] => None
  | (k, v) :: o' => if String.eqb k key then Some v else member key o'
  end.

Definition asString (j : json) : option string :=
  match j with JString s => Some s | _ => None end.

Definition asBool (j : json) : option bool :=
  match j with JBool b => Some b | _ => None end.

(** Modelled from the spec: the decode of a stored timestamp by the adapter
    (hooks/useLocalStorage.ts, not available): the text is converted back to
    the point-in-time type, a [Date] of the same instant. *)
Definition asDate (j : json) : option DateValue :=
  match j with JIsoDate ms => Some (DateObj ms) | _ => None end.

Definition asPriority (j : json) : option Priority :=
  match j with
  | JString s =>
      if String.eqb s "high" then Some high
      else if String.eqb s "medium" then Some medium
      else if String.eqb s "low" then Some low
      else None
  | _ => None
  end.

(** A property that may be missing: absent reads as [undefined]. *)
Definition optional {A} (conv : json -> option A) (v : option json)
  : option (option A) :=
  match v with
  | None => Some None
  | Some j => option_map Some (conv j)
  end.

Definition required {A} (conv : json -> option A) (v : option json) : option A :=
  match v with
  | None => None
  | Some j => conv j
  end.

Definition obind {A B} (m : option A) (k : A -> option B) : option B :=
  match m with None => None | Some a => k a end.

(** Modelled from the spec: the structured decode of one stored task by the
    adapter (hooks/useLocalStorage.ts, not available). *)
Definition asTask (j : json) : option Task :=
  match j with
  | JObject o =>
      obind (required asString (member "id" o)) (fun i =>
      obind (required asString (member "title" o)) (fun ti =>
      obind (optional asString (member "description" o)) (fun de =>
      obind (required asPriority (member "priority" o)) (fun pr =>
      obind (required asBool (member "completed" o)) (fun co =>
      obind (optional asDate (member "dueDate" o)) (fun du =>
      obind (required asDate (member "createdAt" o)) (fun cr =>
      obind (required asDate (member "updatedAt" o)) (fun up =>
      Some (mkTask i ti de pr co du cr up)))))))))
  | _ => None
  end.

Fixpoint asTaskList (l : list json) : option (list Task) :=
  match l with
  | [] => Some []
  | j :: l' =>
      obind (asTask j) (fun t =>
      obind (asTaskList l') (fun ts => Some (t :: ts)))
  end.

(** Modelled from the spec: the structured decode of the stored array by
    the adapter (hooks/useLocalStorage.ts, not available). *)
Definition asTasks (j : json) : option (list Task) :=
  match j with
  | JArray l => asTaskList l
  | _ => None
  end.

(** *** The slot of [useTasks] *)

Definition tasksKey : string := "tasks".

(** Modelled from the spec: persisting the full sequence through the
    adapter (hooks/useLocalStorage.ts, not available), as every [setTasks]
    does: the whole list is written under the one key. *)
Definition persistTasks (ls : LocalStorage) (ts : list Task) : LocalStorage :=
  write ls tasksKey (stringifyTasks ts).

(** Modelled from the spec: the initial value of [tasks] in a fresh
    instance of the hook, loaded through the adapter
    (hooks/useLocalStorage.ts, not available); missing or corrupt content is
    treated as an empty array. *)
Definition loadTasks (ls : LocalStorage) : list Task :=
  match asTasks (read ls tasksKey (JArray [])) with
  | Some ts => ts
  | None => []
  end.

Definition freshStore (ls : LocalStorage) : Store :=
  mkStore (loadTasks ls) None "".

(** A task with every timestamp as a [Date] object of the same instant:
    what [new Date(...)] makes of each of them. *)
Definition revived (t : Task) : Task :=
  {| id := id t;
     title := title t;
     description := description t;
     priority := priority t;
     completed := completed t;
     dueDate := option_map newDateOf (dueDate t);
     createdAt := newDateOf (createdAt t);
     updatedAt := newDateOf (updatedAt t) |}.

(** The timestamps of a task are [Date] objects, as the [Task] interface
    declares and as in every task the hook builds itself. *)
Definition isDateObj (d : DateValue) : Prop :=
  match d with DateObj _ => True | IsoString _ => False end.

Definition holdsDateObjects (t : Task) : Prop :=
  isDateObj (createdAt t) /\ isDateObj (updatedAt t) /\
  match dueDate t with Some d => isDateObj d | None => True end.

Definition emptyStorage : LocalStorage := mkLocalStorage [] false false.

(** A storage whose quota is exhausted: every [setItem] throws. *)
Definition fullStorage : LocalStorage := mkLocalStorage [] false true.

End DurableStore.

(** ** Vocabulary of the properties *)

Section Vocabulary.

Variable clock : nat -> Z.
Variable random : nat -> string.

(** [d] is a [new Date()] made by one of the clock readings [lo], ...,
    [hi - 1]. *)
Definition readBetween (lo hi : nat) (d : DateValue) : Prop :=
  exists k, (lo <= k < hi)%nat /\ d = DateObj (clock k).

(** How [editTask] relates a task before and after, when the task being
    edited has id [target] and the call made the clock readings [lo], ...,
    [hi - 1]. *)
Definition editedBy (target : string) (data : TaskFormData) (lo hi : nat)
  (old new : Task) : Prop :=
  (id old <> target -> new = old) /\
  (id old = target ->
     id new = id old /\
     completed new = completed old /\
     createdAt new = createdAt old /\
     title new = formTitle data /\
     description new = formDescription data /\
     priority new = formPriority data /\
     dueDate new = formDueDate data /\
     readBetween lo hi (updatedAt new)).

(** The same for [toggleTaskComplete]. *)
Definition toggledBy (target : string) (lo hi : nat) (old new : Task) : Prop :=
  (id old <> target -> new = old) /\
  (id old = target ->
     id new = id old /\
     title new = title old /\
     description new = description old /\
     priority new = priority old /\
     dueDate new = dueDate old /\
     createdAt new = createdAt old /\
     completed new = negb (completed old) /\
     readBetween lo hi (updatedAt new)).

(** The task that [addTask] builds when the clock has been read [c] times
    and [Math.random] called [r] times before the call. *)
Definition newTaskAt (c r : nat) (data : TaskFormData) : Task :=
  {| id := (JsString.toString36 (clock c) ++ random r)%string;
     title := formTitle data;
     description := formDescription data;
     priority := formPriority data;
     completed := false;
     dueDate := formDueDate data;
     createdAt := DateObj (clock (c + 1));
     updatedAt := DateObj (clock (c + 2)) |}.

(** The tasks that consecutive [addTask] calls build. *)
Fixpoint addedTasks (c r : nat) (ds : list TaskFormData) : list Task :=
  match ds with
  | [] => []
  | d :: ds' => newTaskAt c r d :: addedTasks (c + 3) (r + 1) ds'
  end.

(** What [addTask data] appends when the call made the clock readings
    [lo], ..., [hi - 1]: the id is the base-36 text of one reading followed
    by the random digits [digits], and the two timestamps are the next two
    readings. *)
Definition addedBy (data : TaskFormData) (digits : string) (lo hi : nat)
  (new : Task) : Prop :=
  completed new = false /\
  title new = formTitle data /\
  description new = formDescription data /\
  priority new = formPriority data /\
  dueDate new = formDueDate data /\
  exists k, (lo <= k /\ k + 3 <= hi)%nat /\
    id new = (JsString.toString36 (clock k) ++ digits)%string /\
    createdAt new = DateObj (clock (k + 1)) /\
    updatedAt new = DateObj (clock (k + 2)).

(** Both timestamps of a task are clock readings made before the [n]-th,
    [createdAt] not after [updatedAt]. *)
Definition stampedBefore (n : nat) (t : Task) : Prop :=
  exists i j, (i <= j < n)%nat /\
    createdAt t = DateObj (clock i) /\ updatedAt t = DateObj (clock j).

(** A search query that [filteredTasks] treats as no query at all. *)
Definition blank (query : string) : bool :=
  negb (JsString.truthy (JsString.trim query)).

(** The number of elements of [l] that satisfy [p]. *)
Fixpoint countIf {A} (p : A -> bool) (l : list A) : nat :=
  match l with
  | [] => 0
  | a :: l' => (if p a then 1 else 0) + countIf p l'
  end.

(** A task is overdue at the instant [now]. *)
Definition overdueAt (now : Z) (t : Task) : bool :=
  negb (completed t) &&
  match dueDate t with
  | None => false
  | Some d => (getTime d <? now)%Z
  end.




(** The clock reading and the random digits that go into the id of each of
    [n] consecutive [addTask] calls, the first of which finds the clock read
    [c] times and [Math.random] called [r] times. *)
Fixpoint idStamps (c r : nat) (n : nat) : list (Z * string) :=
  match n with
  | O => []
  | S n' => (clock c, random r) :: idStamps (c + 3) (r + 1) n'
  end.

(** The id that [generateId] makes of a clock reading and of the random
    digits. *)
Definition stampId (p : Z * string) : string :=
  (JsString.toString36 (fst p) ++ snd p)%string.

Definition createdBeforeUpdated (t : Task) : Prop :=
  (getTime (createdAt t) <= getTime (updatedAt t))%Z.

Definition updatedAtAdvances (old new : Task) : Prop :=
  (getTime (updatedAt old) < getTime (updatedAt new))%Z.

Definition nonDecreasing : Prop :=
  forall a b, (a <= b)%nat -> (clock a <= clock b)%Z.

Definition strictlyIncreasing : Prop :=
  forall a b, (a < b)%nat -> (clock a < clock b)%Z.

End Vocabulary.

(** ** Concrete data used in the examples *)

Module Samples.

Definition session0 : Z := 1700000000000.

(** A clock that does not tick during the session. *)
Definition frozenClock (n : nat) : Z := session0.

(** A clock that ticks one millisecond between any two readings. *)
Definition tickingClock (n : nat) : Z := (session0 + Z.of_nat n)%Z.

(** A clock that ticks once, after its second reading. *)
Definition tickAfterTwo (n : nat) : Z :=
  if (n <? 2)%nat then session0 else (session0 + 1)%Z.

(** [Math.random] returning 0.5 at every draw: [(0.5).toString(36)] is
    "0.i". *)
Definition sameDigits (n : nat) : string := "i".

Definition freshDigits (n : nat) : string :=
  JsString.toString36 (Z.of_nat (1000 + n)).

Definition world0 : World := mkWorld 0 0.

Definition buyMilk : TaskFormData := mkForm "Buy milk" None low None.

Definition callMum : TaskFormData :=
  mkForm "Call mum" (Some "before Sunday") high (Some (DateObj 1699990000000)).

Definition milkTask : Task :=
  mkTask "1" "Buy milk" None low false None
         (DateObj session0) (DateObj session0).

Definition mumTask : Task :=
  mkTask "2" "Call mum" (Some "before Sunday") high false
         (Some (DateObj 1699990000000)) (DateObj session0) (DateObj session0).

Definition twoTasks : Store := mkStore [milkTask; mumTask] None "".

(** The task being edited has been deleted from the list by other means. *)
Definition ghostTask : Task :=
  mkTask "9" "Gone" None medium false None (DateObj session0) (DateObj session0).

Definition editingGhost : Store := mkStore [milkTask; mumTask] (Some ghostTask) "milk".

Definition taskOne : Task :=
  mkTask "1" "Task One" (Some "This is a test task") medium false
         (Some (DateObj 1735603200000)) (DateObj 1704067200000) (DateObj 1704067200000).

Definition taskTwo : Task :=
  mkTask "2" "Task Two" (Some "This is a test task") medium false
         (Some (DateObj 1735603200000)) (DateObj 1704067200000) (DateObj 1704067200000).

Definition differentTask : Task :=
  mkTask "3" "Different Task" (Some "This is a test task") medium false
         (Some (DateObj 1735603200000)) (DateObj 1704067200000) (DateObj 1704067200000).

Definition shortSession : list Op :=
  [OpAddTask buyMilk; OpAddTask callMum; OpSetSearchQuery "mum";
   OpToggleTaskComplete "zzz"; OpCancelEditing].

End Samples.

(** ** Keyboard shortcuts (hooks/useKeyboardShortcuts.ts) *)
Module Keyboard.

Record KeyboardEvent := mkKeyboardEvent {
  ctrlKey : bool;
  metaKey : bool;
  shiftKey : bool;
  altKey : bool;
  key : string
}.

(** [Array.prototype.join] *)
Fixpoint join (sep : string) (l : list string) : string :=
  match l with
  | [] => EmptyString
  | [x] => x
  | x :: rest => (x ++ sep ++ join sep rest)%string
  end.

(** The key combination string that [handleKeyDown] builds. *)
Definition combination (event : KeyboardEvent) : string :=
  let keys := [] in
  let keys := if ctrlKey event || metaKey event then keys ++ ["ctrl"] else keys in
  let keys := if shiftKey event then keys ++ ["shift"] else keys in
  let keys := if altKey event then keys ++ ["alt"] else keys in
  let mainKey := JsString.toLowerCase (key event) in
  join "+" (keys ++ [mainKey]).

Section Handlers.

(** The callbacks; what they do is up to the caller. *)
Variable Handler : Type.

(** The [KeyboardShortcuts] object: its own properties in insertion
    order. *)
Definition KeyboardShortcuts : Type := list (string * Handler).

(** [shortcuts[name] = handler] *)
Fixpoint setProperty (shortcuts : KeyboardShortcuts) (name : string)
  (handler : Handler) : KeyboardShortcuts :=
  match shortcuts with
  | [] => [(name, handler)]
  | (k, h) :: rest =>
      if String.eqb k name then (k, handler) :: rest
      else (k, h) :: setProperty rest name handler
  end.

Fixpoint ownProperty (shortcuts : KeyboardShortcuts) (name : string)
  : option Handler :=
  match shortcuts with
  | [] => None
  | (k, h) :: rest => if String.eqb k name then Some h else ownProperty rest name
  end.

(** What [shortcuts[name]] evaluates to.  The object is a plain object, so
    a name it does not own is looked up in [Object.prototype]; of the names
    found there only [constructor] and [__proto__] are written in lower
    case, which is all a combination can be. *)
Inductive PropertyValue :=
| OwnHandler (h : Handler)
| ObjectConstructor
| ObjectPrototype
| Undefined.

Definition getProperty (shortcuts : KeyboardShortcuts) (name : string)
  : PropertyValue :=
  match ownProperty shortcuts name with
  | Some h => OwnHandler h
  | None =>
      if String.eqb name "constructor" then ObjectConstructor
      else if String.eqb name "__proto__" then ObjectPrototype
      else Undefined
  end.

(** What a key press leads to: nothing at all; or [preventDefault] followed
    by a callback, by a call of [Object] (which does nothing), or by the
    [TypeError] of calling something that is not a function. *)
Inductive Outcome :=
| Ignored
| Ran (h : Handler)
| RanObject
| Threw.

Definition handleKeyDown (shortcuts : KeyboardShortcuts) (event : KeyboardEvent)
  : Outcome :=
  match getProperty shortcuts (combination event) with
  | Undefined => Ignored
  | OwnHandler h => Ran h
  | ObjectConstructor => RanObject
  | ObjectPrototype => Threw
  end.

(** The listener is installed only when [enabled]. *)
Definition useKeyboardShortcuts (shortcuts : KeyboardShortcuts) (enabled : bool)
  (event : KeyboardEvent) : Outcome :=
  if enabled then handleKeyDown shortcuts event else Ignored.

Definition setIfGiven (shortcuts : KeyboardShortcuts) (name : string)
  (callback : option Handler) : KeyboardShortcuts :=
  match callback with
  | Some h => setProperty shortcuts name h
  | None => shortcuts
  end.

(** The object that [useTaskShortcuts] fills in. *)
Definition taskShortcuts (onNewTask onEscape onSearch onSave : option Handler)
  : KeyboardShortcuts :=
  let shortcuts := [] in
  let shortcuts := setIfGiven shortcuts "ctrl+n" onNewTask in
  let shortcuts := setIfGiven shortcuts "escape" onEscape in
  let shortcuts := setIfGiven shortcuts "ctrl+f" onSearch in
  let shortcuts := setIfGiven shortcuts "ctrl+s" onSave in
  shortcuts.

Definition useTaskShortcuts (onNewTask onEscape onSearch onSave : option Handler)
  (event : KeyboardEvent) : Outcome :=
  useKeyboardShortcuts (taskShortcuts onNewTask onEscape onSearch onSave) true event.

End Handlers.

Arguments OwnHandler {Handler} h.
Arguments ObjectConstructor {Handler}.
Arguments ObjectPrototype {Handler}.
Arguments Undefined {Handler}.
Arguments Ignored {Handler}.
Arguments Ran {Handler} h.
Arguments RanObject {Handler}.
Arguments Threw {Handler}.
Arguments setProperty {Handler} shortcuts name handler.
Arguments ownProperty {Handler} shortcuts name.
Arguments getProperty {Handler} shortcuts name.
Arguments handleKeyDown {Handler} shortcuts event.
Arguments useKeyboardShortcuts {Handler} shortcuts enabled event.
Arguments setIfGiven {Handler} shortcuts name callback.
Arguments taskShortcuts {Handler} onNewTask onEscape onSearch onSave.
Arguments useTaskShortcuts {Handler} onNewTask onEscape onSearch onSave event.

(** What pressing the combination of an optional callback leads to. *)
Definition ranIfGiven {Handler} (callback : option Handler) : Outcome Handler :=
  match callback with
  | Some h => Ran h
  | None => Ignored
  end.

(** The modifier keys of an event, with Ctrl and Meta taken together as
    the handler does. *)
Definition plainPress (event : KeyboardEvent) : bool :=
  negb (ctrlKey event || metaKey event) && negb (shiftKey event) && negb (altKey event).

Definition ctrlPress (event : KeyboardEvent) : bool :=
  (ctrlKey event || metaKey event) && negb (shiftKey event) && negb (altKey event).

End Keyboard.

(** ** The task card (components/TaskCard.tsx) *)
Module TaskCard.

Section Card.

Variable clock : nat -> Z.

(** [task.dueDate && new Date(task.dueDate) < new Date() && !task.completed],
    as a truth value.  The clock is read whenever there is a due date. *)
Definition isOverdue (task : Task) : M bool :=
  match dueDate task with
  | None => ret false
  | Some d =>
      now <- newDate clock ;;
      if (getTime (newDateOf d) <? getTime now)%Z
      then ret (negb (completed task))
      else ret false
  end.

End Card.

(** [task.description && (...)]: the description paragraph is rendered. *)
Definition showsDescription (task : Task) : bool :=
  match description task with
  | None => false
  | Some d => JsString.truthy d
  end.

End TaskCard.

(** ** The task form (components/TaskForm.tsx) *)
Module TaskForm.

(** The values held by the form: the two text inputs, the select and the
    date picker. *)
Record FieldValues := mkFieldValues {
  fieldTitle : string;
  fieldDescription : option string;
  fieldPriority : Priority;
  fieldDueDate : option DateValue
}.

(** [a || ''] on an optional string. *)
Definition orEmpty (v : option string) : string :=
  match v with
  | Some s => if JsString.truthy s then s else EmptyString
  | None => EmptyString
  end.

(** [defaultValues] of [useForm], from the [initialData] prop; the page
    passes [editingTask || undefined]. *)
Definition defaultValues (initialData : option Task) : FieldValues :=
  match initialData with
  | Some t =>
      {| fieldTitle := orEmpty (Some (title t));
         fieldDescription := Some (orEmpty (description t));
         fieldPriority := priority t;
         fieldDueDate := dueDate t |}
  | None =>
      {| fieldTitle := EmptyString;
         fieldDescription := Some EmptyString;
         fieldPriority := medium;
         fieldDueDate := None |}
  end.

Inductive Issue :=
| TitleRequired          (* "Title is required" *)
| TitleTooLong           (* "Title must be 100 characters or less" *)
| DescriptionInvalid     (* neither a string of at most 500 characters nor "" *)
| DueDateNotADate.       (* z.date() met something that is not a Date *)

(** [z.string().min(1, ...).max(100, ...).trim()]: the checks run in the
    order they are written, the two length checks on the text as typed, the
    trimming last. *)
Definition checkTitle (s : string) : list Issue * string :=
  ((if (String.length s <? 1)%nat then [TitleRequired] else [])
   ++ (if (100 <? String.length s)%nat then [TitleTooLong] else []),
   JsString.trim s).

(** [z.string().max(500, ...).optional().or(z.literal(""))] *)
Definition checkDescription (v : option string) : list Issue * option string :=
  match v with
  | None => ([], None)
  | Some d =>
      if (String.length d <=? 500)%nat then ([], Some d)
      else if String.eqb d EmptyString then ([], Some d)
      else ([DescriptionInvalid], Some d)
  end.

(** [z.date().optional()]: a [Date] object passes, a string does not. *)
Definition checkDueDate (v : option DateValue) : list Issue * option DateValue :=
  match v with
  | None => ([], None)
  | Some (DateObj ms) => ([], Some (DateObj ms))
  | Some (IsoString ms) => ([DueDateNotADate], Some (IsoString ms))
  end.

Inductive Parsed :=
| Valid (data : TaskFormData)
| Invalid (issues : list Issue).

(** [taskSchema] applied to the values of the form by the resolver; the
    priority comes from the select and is one of the three of the enum. *)
Definition taskSchema (v : FieldValues) : Parsed :=
  let (titleIssues, t) := checkTitle (fieldTitle v) in
  let (descriptionIssues, d) := checkDescription (fieldDescription v) in
  let (dueDateIssues, due) := checkDueDate (fieldDueDate v) in
  match titleIssues ++ descriptionIssues ++ dueDateIssues with
  | [] => Valid (mkForm t d (fieldPriority v) due)
  | issues => Invalid issues
  end.

End TaskForm.

(** ** The page (pages/Index.tsx)

    The handlers of the page that act on the form flag and on the task
    store.  The timer and the flag of the started test are read by none of
    them and are left out, with the two handlers that start and reset the
    test. *)
Module Page.

Record State := mkState {
  showForm : bool;
  store : Store
}.

Section Handlers.

Variable clock : nat -> Z.
Variable random : nat -> string.

Definition handleAddTask (formData : TaskFormData) (p : State) : M State :=
  s <- addTask clock random formData (store p) ;;
  ret (mkState false s).

Definition handleEditTask (formData : TaskFormData) (p : State) : M State :=
  s <- editTask clock formData (store p) ;;
  ret (mkState false s).

Definition handleEditClick (task : Task) (p : State) : State :=
  mkState true (startEditingTask task (store p)).

Definition handleCancelForm (p : State) : State :=
  mkState false (cancelEditing (store p)).

(** [onSubmit={editingTask ? handleEditTask : handleAddTask}] *)
Definition onSubmit (formData : TaskFormData) (p : State) : M State :=
  match editingTask (store p) with
  | Some _ => handleEditTask formData p
  | None => handleAddTask formData p
  end.

(** The "Add Task" button: [setShowForm(!showForm)]. *)
Definition clickAddTask (p : State) : State :=
  mkState (negb (showForm p)) (store p).

(** The three callbacks given to [useTaskShortcuts]. *)
Definition onNewTask (p : State) : State :=
  if negb (showForm p) then mkState true (cancelEditing (store p)) else p.

Definition onEscape (p : State) : State :=
  if showForm p then handleCancelForm p else p.

(** Focusing the search box changes nothing of the state. *)
Definition onSearch (p : State) : State := p.

(** The [keydown] listener that [useTaskShortcuts] puts on the document,
    run on one key press; [None] stands for the [TypeError] of a listener
    that called something that is not a function.  What the focused element
    does with the key (the search box takes the character, the form is
    submitted on Enter) is not part of the listener. *)
Definition keyDown (event : Keyboard.KeyboardEvent) (p : State) : option State :=
  match Keyboard.useTaskShortcuts (Some onNewTask) (Some onEscape) (Some onSearch)
                                  None event with
  | Keyboard.Ignored => Some p
  | Keyboard.Ran h => Some (h p)
  | Keyboard.RanObject => Some p
  | Keyboard.Threw => None
  end.

End Handlers.

End Page.

(** ** More vocabulary *)

Section MoreVocabulary.

(** Every character of [s] is white space. *)
Fixpoint allWhiteSpace (s : string) : bool :=
  match s with
  | EmptyString => true
  | String c s' => JsString.isWhiteSpace c && allWhiteSpace s'
  end.

Definition firstChar (s : string) : option ascii :=
  match s with
  | EmptyString => None
  | String c _ => Some c
  end.

Fixpoint lastChar (s : string) : option ascii :=
  match s with
  | EmptyString => None
  | String c EmptyString => Some c
  | String _ s' => lastChar s'
  end.

(** The value of a base-36 digit. *)
Definition digitValue36 (c : ascii) : N :=
  let n := N_of_ascii c in
  if ((48 <=? n) && (n <=? 57))%N then (n - 48)%N else (n - 87)%N.

(** The number that a string of base-36 digits denotes. *)
Fixpoint valueOf36 (acc : N) (s : string) : N :=
  match s with
  | EmptyString => acc
  | String c s' => valueOf36 (acc * 36 + digitValue36 c) s'
  end.

(** The search predicate that [filteredTasks] computes when nothing goes
    wrong: the title or the description contains the query. *)
Definition matchesText (query : string) (t : Task) : bool :=
  JsString.includes (JsString.toLowerCase (title t)) query
  || match description t with
     | Some d => JsString.includes (JsString.toLowerCase d) query
     | None => false
     end.

(** Every task of the store has a description. *)
Definition allDescribed (s : Store) : Prop :=
  forall t, In t (tasks s) -> description t <> None.

(** An operation whose form data, if it carries any, has a description. *)
Definition suppliesDescription (op : Op) : Prop :=
  match op with
  | OpAddTask d => formDescription d <> None
  | OpEditTask d => formDescription d <> None
  | _ => True
  end.

(** The instants whose base-36 text has eight digits: from 1972 to 2059. *)
Definition eightDigits (t : Z) : Prop := (36 ^ 7 <= t < 36 ^ 8)%Z.

End MoreVocabulary.

Module MoreSamples.

Import Keyboard.

Definition ctrlN : KeyboardEvent := mkKeyboardEvent true false false false "n".
Definition cmdShiftN : KeyboardEvent := mkKeyboardEvent false true true false "N".
Definition escape : KeyboardEvent := mkKeyboardEvent false false false false "Escape".

Definition spaces : TaskForm.FieldValues :=
  TaskForm.mkFieldValues "   " (Some "") low None.

Definition milkFields : TaskForm.FieldValues :=
  TaskForm.mkFieldValues " Buy milk " (Some "semi-skimmed") low
                         (Some (DateObj 1700003600000)).

Definition editingMilk : Page.State :=
  Page.mkState true (startEditingTask Samples.milkTask Samples.twoTasks).

Definition describedTasks : Store :=
  mkStore [Samples.mumTask; Samples.taskOne] None "mum".

(** A snapshot of the milk task taken before it was renamed and completed. *)
Definition staleMilk : Task :=
  mkTask "1" "Buy mlik" (Some "typo") high true None
         (DateObj 1690000000000) (DateObj 1690000000000).

(** The task "Call mum" with its timestamps as ISO strings, as a plain
    [JSON.parse] of its stored text leaves them. *)
Definition reloadedMum : Task :=
  mkTask "2" "Call mum" (Some "before Sunday") high false
         (Some (IsoString 1699990000000))
         (IsoString Samples.session0) (IsoString Samples.session0).





(** A clock one millisecond, then fifty-four milliseconds, after the
    epoch. *)
Definition earlyClock (n : nat) : Z := if (n <? 3)%nat then 1%Z else 54%Z.

(** [Math.random] returning 0.5 and then 0: [(0).toString(36)] is "0", of
    which [substr(2)] is empty. *)
Definition halfThenZero (n : nat) : string :=
  if (n =? 0)%nat then "i" else EmptyString.

(** A task that already carries the id that the next call will generate. *)
Definition sameIdTask : Task :=
  mkTask "loyw3v28i" "Old" (Some "") low false None
         (DateObj Samples.session0) (DateObj Samples.session0).




Definition describedSession : list Op :=
  [OpAddTask Samples.callMum; OpToggleTaskComplete "loyw3v28rs";
   OpStartEditingTask Samples.mumTask; OpEditTask Samples.callMum;
   OpDeleteTask "7"].

End MoreSamples.

(** ** Properties of the task store *)

Section Properties.

Variable clock : nat -> Z.
Variable random : nat -> string.

(** *** Base-36 text of a number *)

(** The fuel given by the number of binary digits is enough: more fuel does
    not produce more digits. *)
Lemma toString36_digits_fuel (fuel : nat) :
  forall (n : N) (acc : string),
    (0 < n)%N -> (n < 2 ^ N.of_nat fuel)%N ->
    JsString.toString36_digits (S fuel) n acc
    = JsString.toString36_digits fuel n acc.
Proof.
  induction fuel as [|fuel IH]; intros n acc Hpos Hlt.
  - simpl in Hlt. lia.
  - cbn [JsString.toString36_digits].
    destruct (N.eqb_spec (n / 36) 0) as [Hq|Hq]; [reflexivity|].
    apply IH; [apply N.neq_0_lt_0; exact Hq|].
    apply N.Div0.div_lt_upper_bound.
    rewrite Nat2N.inj_succ, N.pow_succ_r' in Hlt.
    eapply N.lt_le_trans; [exact Hlt|].
    apply N.mul_le_mono_r. discriminate.
Qed.

Lemma toString36_digits_enough (p : positive) (extra : nat) :
  JsString.toString36_digits (N.to_nat (N.size (Npos p)) + extra) (Npos p) EmptyString
  = JsString.toString36_digits (N.to_nat (N.size (Npos p))) (Npos p) EmptyString.
Proof.
  induction extra as [|extra IH].
  - rewrite Nat.add_0_r. reflexivity.
  - rewrite Nat.add_succ_r, toString36_digits_fuel; [exact IH|lia|].
    eapply N.lt_le_trans; [apply N.size_gt|].
    apply N.pow_le_mono_r; lia.
Qed.

(** *** The monad *)

Lemma mapM_unchanged {A} (f : A -> M A) (l : list A) :
  (forall a, In a l -> forall w, f a w = (a, w)) ->
  forall w, mapM f l w = (l, w).
Proof.
  induction l as [|a l IH]; intros Hf w; simpl.
  - reflexivity.
  - unfold bind. rewrite (Hf a (or_introl eq_refl)).
    rewrite IH by (intros b Hb; apply Hf; right; exact Hb).
    reflexivity.
Qed.

Lemma filter_length_countIf {A} (p : A -> bool) (l : list A) :
  List.length (filter p l) = countIf p l.
Proof.
  induction l as [|a l IH]; simpl; [reflexivity|].
  destruct (p a); simpl; rewrite IH; reflexivity.
Qed.

Lemma filter_unchanged {A} (p : A -> bool) (l : list A) :
  (forall a, In a l -> p a = true) -> filter p l = l.
Proof.
  induction l as [|a l IH]; intros Hp; simpl; [reflexivity|].
  rewrite (Hp a (or_introl eq_refl)).
  f_equal. apply IH. intros b Hb. apply Hp. right. exact Hb.
Qed.

Lemma filter_twice {A} (p : A -> bool) (l : list A) :
  filter p (filter p l) = filter p l.
Proof.
  apply filter_unchanged. intros a Ha.
  apply filter_In in Ha. apply Ha.
Qed.

(** *** [editTask] without a usable target *)

Lemma editTask_no_target
  (data : TaskFormData) (s : Store) (w : World) :
  editingTask s = None -> editTask clock data s w = (s, w).
Proof. intros Hnone. unfold editTask. rewrite Hnone. reflexivity. Qed.

(** C8: with no task being edited, [editTask] returns at once: the store
    (tasks, editingTask, searchQuery) is what it was, for every argument,
    and nothing of the outside world has been observed. *)
Theorem C8_editTask_without_target_is_noop :
  forall (data : TaskFormData) (s : Store) (w : World),
    editingTask s = None ->
    editTask clock data s w = (s, w).
Proof.
  intros data s w Hnone. unfold editTask.
  rewrite Hnone. reflexivity.
Qed.

Lemma editOne_other (e : Task) (data : TaskFormData) (t : Task) (w : World) :
  id t <> id e -> editOne clock e data t w = (t, w).
Proof.
  intros Hne. unfold editOne.
  apply String.eqb_neq in Hne. rewrite Hne. reflexivity.
Qed.

(** C10: when the task being edited has an id that no task of the list
    carries, [editTask] leaves the sequence of tasks as it is and still
    clears [editingTask]; the search query is kept and the clock is not
    read. *)
Theorem C10_editTask_stale_target_clears_editing :
  forall (data : TaskFormData) (s : Store) (e : Task) (w : World),
    editingTask s = Some e ->
    (forall t, In t (tasks s) -> id t <> id e) ->
    editTask clock data s w = (mkStore (tasks s) None (searchQuery s), w).
Proof.
  intros data s e w He Habsent. unfold editTask.
  rewrite He. unfold bind.
  rewrite mapM_unchanged.
  - reflexivity.
  - intros t Ht w0. apply editOne_other. apply Habsent. exact Ht.
Qed.

(** *** [deleteTask] *)

Lemma deleteTask_tasks (taskId : string) (s : Store) :
  tasks (deleteTask taskId s)
  = filter (fun task => negb (String.eqb (id task) taskId)) (tasks s).
Proof.
  unfold deleteTask. destruct (editingTask s) as [e|]; [|reflexivity].
  destruct (String.eqb (id e) taskId); reflexivity.
Qed.

Lemma deleteTask_searchQuery (taskId : string) (s : Store) :
  searchQuery (deleteTask taskId s) = searchQuery s.
Proof.
  unfold deleteTask. destruct (editingTask s) as [e|]; [|reflexivity].
  destruct (String.eqb (id e) taskId); reflexivity.
Qed.

Lemma deleteTask_idempotent (taskId : string) (s : Store) :
  deleteTask taskId (deleteTask taskId s) = deleteTask taskId s.
Proof.
  destruct s as [ts ed q]. unfold deleteTask; simpl.
  destruct ed as [e|]; simpl.
  - destruct (String.eqb (id e) taskId) eqn:E; simpl; rewrite ?E;
      rewrite filter_twice; reflexivity.
  - rewrite filter_twice; reflexivity.
Qed.

(** C7: [deleteTask] keeps exactly the tasks whose id differs from the
    argument, in their order: a task list whose only task with that id is
    [t] loses [t] and nothing else; a list without that id is left as it
    is; a second call changes nothing; and a task being edited with that id
    stops being edited. *)
Theorem C7_deleteTask_removes_and_is_idempotent :
  forall (taskId : string) (s : Store),
    (forall t, In t (tasks (deleteTask taskId s))
               <-> In t (tasks s) /\ id t <> taskId) /\
    (forall l1 t l2,
        tasks s = l1 ++ t :: l2 -> id t = taskId ->
        (forall u, In u (l1 ++ l2) -> id u <> taskId) ->
        tasks (deleteTask taskId s) = l1 ++ l2) /\
    ((forall t, In t (tasks s) -> id t <> taskId) ->
     tasks (deleteTask taskId s) = tasks s) /\
    deleteTask taskId (deleteTask taskId s) = deleteTask taskId s /\
    (forall e, editingTask s = Some e -> id e = taskId ->
               editingTask (deleteTask taskId s) = None).
Proof.
  intros taskId s.
  assert (Hkeep : forall l, (forall u, In u l -> id u <> taskId) ->
            filter (fun task => negb (String.eqb (id task) taskId)) l = l).
  { intros l Hl. apply filter_unchanged. intros a Ha.
    apply negb_true_iff, String.eqb_neq, Hl, Ha. }
  repeat split.
  - rewrite deleteTask_tasks in H. apply filter_In in H. apply H.
  - rewrite deleteTask_tasks in H. apply filter_In in H.
    destruct H as [_ H]. apply negb_true_iff in H.
    apply String.eqb_neq. exact H.
  - intros [Hin Hne]. rewrite deleteTask_tasks. apply filter_In.
    split; [exact Hin|]. apply negb_true_iff, String.eqb_neq, Hne.
  - intros l1 t l2 Hsplit Hid Hothers.
    rewrite deleteTask_tasks, Hsplit, filter_app. simpl.
    apply String.eqb_eq in Hid. rewrite Hid. simpl.
    rewrite <- filter_app. apply Hkeep, Hothers.
  - intros Habsent. rewrite deleteTask_tasks. apply Hkeep, Habsent.
  - apply deleteTask_idempotent.
  - intros e He Hid. unfold deleteTask. rewrite He.
    apply String.eqb_eq in Hid. rewrite Hid. reflexivity.
Qed.

(** *** [taskStats] *)

Lemma overdueNow_reads (t : Task) (w : World) :
  fst (overdueNow clock t w) = overdueAt (clock (clockReads w)) t /\
  (clockReads w <= clockReads (snd (overdueNow clock t w)) <= S (clockReads w))%nat.
Proof.
  unfold overdueNow, overdueAt.
  destruct (dueDate t) as [d|]; simpl.
  - destruct (completed t); simpl; [split; [reflexivity|lia]|].
    split; [reflexivity|lia].
  - rewrite andb_false_r. split; [reflexivity|lia].
Qed.

Lemma filterM_overdueNow_at (now : Z) (ts : list Task) :
  forall w,
    (forall k, (clockReads w <= k < clockReads w + List.length ts)%nat ->
               clock k = now) ->
    fst (filterM (overdueNow clock) ts w) = filter (overdueAt now) ts.
Proof.
  induction ts as [|t ts IH]; intros w Hnow; simpl; [reflexivity|].
  unfold bind.
  destruct (overdueNow_reads t w) as [Hb Hw].
  destruct (overdueNow clock t w) as [b w1]; simpl in Hb, Hw.
  specialize (IH w1).
  destruct (filterM (overdueNow clock) ts w1) as [r w2]; simpl in IH |- *.
  rewrite (Hnow (clockReads w)) in Hb by (simpl; lia).
  rewrite Hb, IH; [reflexivity|].
  intros k Hk. apply Hnow. simpl. lia.
Qed.

(** Computed while the clock shows the one instant [now], the statistics
    are those of the list at [now]. *)
Lemma taskStats_at_one_instant :
  forall (s : Store) (w : World) (now : Z),
    (forall k, (clockReads w <= k < clockReads w + List.length (tasks s))%nat ->
               clock k = now) ->
    fst (taskStats clock s w)
    = {| total := Z.of_nat (List.length (tasks s));
         completedCount := Z.of_nat (countIf completed (tasks s));
         pending := (Z.of_nat (List.length (tasks s))
                     - Z.of_nat (countIf completed (tasks s)))%Z;
         overdue := Z.of_nat (countIf (overdueAt now) (tasks s)) |}.
Proof.
  intros s w now Hnow. unfold taskStats, bind.
  pose proof (filterM_overdueNow_at now (tasks s) w Hnow) as Hod.
  destruct (filterM (overdueNow clock) (tasks s) w) as [od w']; simpl in *.
  rewrite Hod, !filter_length_countIf. reflexivity.
Qed.

(** *** [filteredTasks] *)

Lemma filteredTasks_blank (s : Store) :
  blank (searchQuery s) = true -> filteredTasks s = Ok (tasks s).
Proof. unfold filteredTasks, blank. intros ->. reflexivity. Qed.

(** The search goes wrong exactly when the list holds a task without a
    description whose title does not contain the query. *)
Lemma filterR_matchesQuery_throws (query : string) (ts : list Task) :
  filterR (matchesQuery query) ts = Throw_TypeError
  <-> exists t, In t ts /\ description t = None /\
        JsString.includes (JsString.toLowerCase (title t)) query = false.
Proof.
  induction ts as [|t ts IH]; simpl.
  - split; [discriminate|]. intros [t [[] _]].
  - unfold matchesQuery at 1.
    destruct (JsString.includes (JsString.toLowerCase (title t)) query) eqn:Et.
    + destruct (filterR (matchesQuery query) ts) as [r|] eqn:Er.
      * split; [discriminate|].
        intros [u [[<-|Hu] [Hd Hn]]]; [congruence|].
        assert (Hr : Ok r = Throw_TypeError) by (apply IH; exists u; auto).
        discriminate Hr.
      * split; [|reflexivity]. intros _.
        destruct IH as [IH _]. destruct (IH eq_refl) as [u [Hu Hrest]].
        exists u. split; [right; exact Hu|exact Hrest].
    + destruct (description t) as [d|] eqn:Ed.
      * destruct (filterR (matchesQuery query) ts) as [r|] eqn:Er.
        -- split; [discriminate|].
           intros [u [[<-|Hu] [Hd Hn]]]; [congruence|].
           assert (Hr : Ok r = Throw_TypeError) by (apply IH; exists u; auto).
           discriminate Hr.
        -- split; [|reflexivity]. intros _.
           destruct IH as [IH _]. destruct (IH eq_refl) as [u [Hu Hrest]].
           exists u. split; [right; exact Hu|exact Hrest].
      * split; [|reflexivity]. intros _. exists t. auto.
Qed.

(** When every task has a description the search is the plain filter on
    title or description. *)
Lemma filteredTasks_all_described (s : Store) :
  blank (searchQuery s) = false ->
  (forall t, In t (tasks s) -> description t <> None) ->
  filteredTasks s
  = Ok (filter (fun t =>
          let query := JsString.toLowerCase (searchQuery s) in
          JsString.includes (JsString.toLowerCase (title t)) query
          || match description t with
             | Some d => JsString.includes (JsString.toLowerCase d) query
             | None => false
             end) (tasks s)).
Proof.
  unfold filteredTasks, blank. intros -> Hdesc.
  induction (tasks s) as [|t ts IH]; simpl; [reflexivity|].
  rewrite IH by (intros u Hu; apply Hdesc; right; exact Hu).
  unfold matchesQuery.
  destruct (JsString.includes (JsString.toLowerCase (title t)) _); simpl.
  - reflexivity.
  - destruct (description t) as [d|] eqn:Ed.
    + reflexivity.
    + exfalso. apply (Hdesc t); [left; reflexivity|exact Ed].
Qed.

(** C1: the search does throw on a task without a description.  With the
    single task "Buy milk" (no description) in the list and the query
    "xyz", whose trimmed form is not empty, evaluating [filteredTasks]
    ends in a [TypeError] instead of returning the empty list. *)
Theorem C1_filteredTasks_throws_without_description :
  JsString.trim "xyz" = "xyz" /\
  description Samples.milkTask = None /\
  filteredTasks (mkStore [Samples.milkTask] None "xyz") = Throw_TypeError.
Proof. repeat split. Qed.

(** *** Lists related position by position *)

Lemma Forall2_weaken_In {A B} (R1 R2 : A -> B -> Prop) (l1 : list A) (l2 : list B) :
  (forall a b, In a l1 -> R1 a b -> R2 a b) ->
  Forall2 R1 l1 l2 -> Forall2 R2 l1 l2.
Proof.
  intros Himp H. induction H as [|a b l1 l2 Hab _ IH]; constructor.
  - apply Himp; [left; reflexivity|exact Hab].
  - apply IH. intros a' b' Ha'. apply Himp. right. exact Ha'.
Qed.

Lemma Forall2_pick {A B} (R : A -> B -> Prop) (l1 : list A) (l2 : list B) (a : A) :
  Forall2 R l1 l2 -> In a l1 -> exists b, In b l2 /\ R a b.
Proof.
  intros H. induction H as [|a0 b0 l1 l2 Hab _ IH]; intros Hin.
  - destruct Hin.
  - destruct Hin as [<-|Hin].
    + exists b0. split; [left; reflexivity|exact Hab].
    + destruct (IH Hin) as [b [Hb Hr]]. exists b. split; [right; exact Hb|exact Hr].
Qed.

Lemma Forall2_chain {A B C} (R1 : A -> B -> Prop) (R2 : B -> C -> Prop)
  (l1 : list A) (l2 : list B) (l3 : list C) :
  Forall2 R1 l1 l2 -> Forall2 R2 l2 l3 ->
  Forall2 (fun a c => exists b, R1 a b /\ R2 b c) l1 l3.
Proof.
  intros H. revert l3. induction H as [|a b l1 l2 Hab _ IH]; intros l3 H23.
  - inversion H23. constructor.
  - inversion H23 as [|b' c l2' l3' Hbc Hrest]; subst.
    constructor; [exists b; split; assumption|apply IH; exact Hrest].
Qed.

Lemma Forall2_middle {A B C} (R1 : A -> B -> Prop) (R2 : B -> C -> Prop)
  (l1 : list A) (l2 : list B) (l3 : list C) :
  Forall2 R1 l1 l2 -> Forall2 R2 l2 l3 ->
  Forall2 (fun b c => exists a, R1 a b /\ R2 b c) l2 l3.
Proof.
  intros H. revert l3. induction H as [|a b l1 l2 Hab _ IH]; intros l3 H23.
  - inversion H23. constructor.
  - inversion H23 as [|b' c l2' l3' Hbc Hrest]; subst.
    constructor; [exists a; split; assumption|apply IH; exact Hrest].
Qed.

(** *** Mapping a task update that reads the clock *)

Lemma mapM_Forall2 {A B} (f : A -> M B) (P : nat -> nat -> A -> B -> Prop) :
  (forall a w,
      randomDraws (snd (f a w)) = randomDraws w /\
      (clockReads w <= clockReads (snd (f a w)))%nat /\
      P (clockReads w) (clockReads (snd (f a w))) a (fst (f a w))) ->
  (forall lo hi lo' hi' a b,
      (lo' <= lo)%nat -> (hi <= hi')%nat -> P lo hi a b -> P lo' hi' a b) ->
  forall l w,
    randomDraws (snd (mapM f l w)) = randomDraws w /\
    (clockReads w <= clockReads (snd (mapM f l w)))%nat /\
    Forall2 (P (clockReads w) (clockReads (snd (mapM f l w)))) l (fst (mapM f l w)).
Proof.
  intros Hf Hmono. induction l as [|a l IH]; intros w; simpl.
  - repeat split; [lia|constructor].
  - unfold bind. destruct (Hf a w) as [Hr [Hc Hp]].
    destruct (f a w) as [b w1]; simpl in Hr, Hc, Hp.
    destruct (IH w1) as [Hr' [Hc' Hp']].
    destruct (mapM f l w1) as [bs w2]; simpl in Hr', Hc', Hp' |- *.
    split; [congruence|]. split; [lia|].
    constructor.
    + apply (Hmono (clockReads w) (clockReads w1)); [lia|lia|exact Hp].
    + eapply Forall2_impl; [|exact Hp'].
      intros a' b'. apply Hmono; lia.
Qed.

Lemma readBetween_widen (lo hi lo' hi' : nat) (d : DateValue) :
  (lo' <= lo)%nat -> (hi <= hi')%nat ->
  readBetween clock lo hi d -> readBetween clock lo' hi' d.
Proof.
  intros Hlo Hhi [k [Hk Hd]]. exists k. split; [lia|exact Hd].
Qed.

Lemma editedBy_widen (target : string) (data : TaskFormData)
  (lo hi lo' hi' : nat) (old new : Task) :
  (lo' <= lo)%nat -> (hi <= hi')%nat ->
  editedBy clock target data lo hi old new ->
  editedBy clock target data lo' hi' old new.
Proof.
  intros Hlo Hhi [Hother Hsame]. split; [exact Hother|].
  intros Hid. specialize (Hsame Hid).
  repeat match goal with H : _ /\ _ |- _ => destruct H end.
  repeat split; try assumption.
  eapply readBetween_widen; eassumption.
Qed.

Lemma toggledBy_widen (target : string) (lo hi lo' hi' : nat) (old new : Task) :
  (lo' <= lo)%nat -> (hi <= hi')%nat ->
  toggledBy clock target lo hi old new ->
  toggledBy clock target lo' hi' old new.
Proof.
  intros Hlo Hhi [Hother Hsame]. split; [exact Hother|].
  intros Hid. specialize (Hsame Hid).
  repeat match goal with H : _ /\ _ |- _ => destruct H end.
  repeat split; try assumption.
  eapply readBetween_widen; eassumption.
Qed.

Lemma editOne_spec (e : Task) (data : TaskFormData) (t : Task) (w : World) :
  randomDraws (snd (editOne clock e data t w)) = randomDraws w /\
  (clockReads w <= clockReads (snd (editOne clock e data t w)))%nat /\
  editedBy clock (id e) data (clockReads w)
           (clockReads (snd (editOne clock e data t w)))
           t (fst (editOne clock e data t w)).
Proof.
  unfold editOne. destruct (String.eqb (id t) (id e)) eqn:E; simpl.
  - repeat split; try reflexivity; try lia.
    + intros Hne. apply String.eqb_eq in E. contradiction.
    + exists (clockReads w). split; [lia|reflexivity].
  - repeat split; try reflexivity; try lia;
      apply String.eqb_neq in E; intros; contradiction.
Qed.

Lemma toggleOne_spec (taskId : string) (t : Task) (w : World) :
  randomDraws (snd (toggleOne clock taskId t w)) = randomDraws w /\
  (clockReads w <= clockReads (snd (toggleOne clock taskId t w)))%nat /\
  toggledBy clock taskId (clockReads w)
            (clockReads (snd (toggleOne clock taskId t w)))
            t (fst (toggleOne clock taskId t w)).
Proof.
  unfold toggleOne. destruct (String.eqb (id t) taskId) eqn:E; simpl.
  - repeat split; try reflexivity; try lia.
    + intros Hne. apply String.eqb_eq in E. contradiction.
    + exists (clockReads w). split; [lia|reflexivity].
  - repeat split; try reflexivity; try lia;
      apply String.eqb_neq in E; intros; contradiction.
Qed.

Lemma editTask_spec (data : TaskFormData) (s : Store) (e : Task) (w : World) :
  editingTask s = Some e ->
  editingTask (fst (editTask clock data s w)) = None /\
  searchQuery (fst (editTask clock data s w)) = searchQuery s /\
  randomDraws (snd (editTask clock data s w)) = randomDraws w /\
  (clockReads w <= clockReads (snd (editTask clock data s w)))%nat /\
  Forall2 (editedBy clock (id e) data (clockReads w)
                    (clockReads (snd (editTask clock data s w))))
          (tasks s) (tasks (fst (editTask clock data s w))).
Proof.
  intros He. unfold editTask. rewrite He. unfold bind.
  destruct (mapM_Forall2 (editOne clock e data) (editedBy clock (id e) data)
              (editOne_spec e data) (editedBy_widen (id e) data) (tasks s) w)
    as [Hr [Hc Hp]].
  destruct (mapM (editOne clock e data) (tasks s) w) as [ts w']; simpl in *.
  auto.
Qed.

Lemma toggleTaskComplete_spec (taskId : string) (s : Store) (w : World) :
  editingTask (fst (toggleTaskComplete clock taskId s w)) = editingTask s /\
  searchQuery (fst (toggleTaskComplete clock taskId s w)) = searchQuery s /\
  randomDraws (snd (toggleTaskComplete clock taskId s w)) = randomDraws w /\
  (clockReads w <= clockReads (snd (toggleTaskComplete clock taskId s w)))%nat /\
  Forall2 (toggledBy clock taskId (clockReads w)
                     (clockReads (snd (toggleTaskComplete clock taskId s w))))
          (tasks s) (tasks (fst (toggleTaskComplete clock taskId s w))).
Proof.
  unfold toggleTaskComplete, bind.
  destruct (mapM_Forall2 (toggleOne clock taskId) (toggledBy clock taskId)
              (toggleOne_spec taskId) (toggledBy_widen taskId) (tasks s) w)
    as [Hr [Hc Hp]].
  destruct (mapM (toggleOne clock taskId) (tasks s) w) as [ts w']; simpl in *.
  auto.
Qed.

(** *** [editTask] on the task being edited *)

(** C4 (amended): after [startEditingTask t] on a task of the list,
    [editTask data] leaves every task with another id as it is; in a task
    with the id of [t] it keeps [id], [completed] and [createdAt], replaces
    [title], [description], [priority] and [dueDate] by those of [data] and
    sets [updatedAt] to a clock reading made by the call; [editingTask] is
    cleared.  The new [updatedAt] is later than the old one whenever the
    clock, from the call on, reads later than the timestamps recorded in
    the list. *)
Theorem C4_editTask_changes_only_the_edited_task :
  forall (s : Store) (t : Task) (data : TaskFormData) (w : World),
    In t (tasks s) ->
    let r := editTask clock data (startEditingTask t s) w in
    editingTask (fst r) = None /\
    searchQuery (fst r) = searchQuery s /\
    Forall2 (editedBy clock (id t) data (clockReads w) (clockReads (snd r)))
            (tasks s) (tasks (fst r)) /\
    (exists new, In new (tasks (fst r)) /\
                 editedBy clock (id t) data (clockReads w) (clockReads (snd r)) t new) /\
    ((forall u k, In u (tasks s) -> (clockReads w <= k)%nat ->
                  (getTime (updatedAt u) < clock k)%Z) ->
     Forall2 (fun old new => id old = id t -> updatedAtAdvances old new)
             (tasks s) (tasks (fst r))).
Proof.
  intros s t data w Hin r.
  destruct (editTask_spec data (startEditingTask t s) t w eq_refl)
    as [Hed [Hq [_ [_ Hall]]]].
  fold r in Hed, Hq, Hall. simpl in Hq, Hall.
  split; [exact Hed|]. split; [exact Hq|]. split; [exact Hall|]. split.
  - eapply Forall2_pick; eassumption.
  - intros Hlater.
    eapply Forall2_weaken_In; [|exact Hall].
    intros old new Hold [_ Hsame] Hid.
    destruct (Hsame Hid) as [_ [_ [_ [_ [_ [_ [_ [k [Hk Hu]]]]]]]]].
    unfold updatedAtAdvances. rewrite Hu. simpl.
    apply Hlater; [exact Hold|lia].
Qed.

(** *** [toggleTaskComplete] *)

Lemma toggleTaskComplete_absent (taskId : string) (s : Store) (w : World) :
  (forall t, In t (tasks s) -> id t <> taskId) ->
  toggleTaskComplete clock taskId s w = (s, w).
Proof.
  intros Habsent. unfold toggleTaskComplete, bind.
  rewrite mapM_unchanged.
  - destruct s; reflexivity.
  - intros t Ht w0. unfold toggleOne.
    apply Habsent, String.eqb_neq in Ht. rewrite Ht. reflexivity.
Qed.

(** C5 (amended): two calls of [toggleTaskComplete] with the same id, one
    after the other, bring [completed] of every task back to what it was;
    each call sets [updatedAt] of the tasks with that id to a clock reading
    of its own, the second made after the first.  The second call moves
    [updatedAt] forward when the clock is strictly increasing, and the first
    does when the clock reads later than the timestamps recorded in the
    list.  With an id that no task carries the call changes nothing. *)
Theorem C5_toggleTaskComplete_twice :
  forall (s : Store) (taskId : string) (w : World),
    let r1 := toggleTaskComplete clock taskId s w in
    let r2 := toggleTaskComplete clock taskId (fst r1) (snd r1) in
    Forall2 (toggledBy clock taskId (clockReads w) (clockReads (snd r1)))
            (tasks s) (tasks (fst r1)) /\
    Forall2 (toggledBy clock taskId (clockReads (snd r1)) (clockReads (snd r2)))
            (tasks (fst r1)) (tasks (fst r2)) /\
    Forall2 (fun t t2 => id t2 = id t /\ completed t2 = completed t)
            (tasks s) (tasks (fst r2)) /\
    ((forall u k, In u (tasks s) -> (clockReads w <= k)%nat ->
                  (getTime (updatedAt u) < clock k)%Z) ->
     Forall2 (fun t t1 => id t = taskId -> updatedAtAdvances t t1)
             (tasks s) (tasks (fst r1))) /\
    (strictlyIncreasing clock ->
     Forall2 (fun t1 t2 => id t1 = taskId -> updatedAtAdvances t1 t2)
             (tasks (fst r1)) (tasks (fst r2))) /\
    ((forall t, In t (tasks s) -> id t <> taskId) -> r1 = (s, w)).
Proof.
  intros s taskId w r1 r2.
  destruct (toggleTaskComplete_spec taskId s w) as [_ [_ [_ [Hc1 H1]]]].
  destruct (toggleTaskComplete_spec taskId (fst r1) (snd r1))
    as [_ [_ [_ [Hc2 H2]]]].
  fold r1 in Hc1, H1. fold r2 in Hc2, H2.
  split; [exact H1|]. split; [exact H2|]. split; [|split; [|split]].
  - eapply Forall2_impl; [|exact (Forall2_chain _ _ _ _ _ H1 H2)].
    intros t t2 [t1 [[Ho1 Hs1] [Ho2 Hs2]]].
    destruct (String.eqb (id t) taskId) eqn:E.
    + apply String.eqb_eq in E.
      destruct (Hs1 E) as [Hid1 [_ [_ [_ [_ [_ [Hco1 _]]]]]]].
      assert (E1 : id t1 = taskId) by congruence.
      destruct (Hs2 E1) as [Hid2 [_ [_ [_ [_ [_ [Hco2 _]]]]]]].
      split; [congruence|].
      rewrite Hco2, Hco1. apply negb_involutive.
    + apply String.eqb_neq in E.
      rewrite (Ho1 E) in *. rewrite (Ho2 E). split; reflexivity.
  - intros Hlater.
    eapply Forall2_weaken_In; [|exact H1].
    intros t t1 Ht [_ Hsame] Hid.
    destruct (Hsame Hid) as [_ [_ [_ [_ [_ [_ [_ [k [Hk Hu]]]]]]]]].
    unfold updatedAtAdvances. rewrite Hu. simpl.
    apply Hlater; [exact Ht|lia].
  - intros Hstrict.
    eapply Forall2_impl; [|exact (Forall2_middle _ _ _ _ _ H1 H2)].
    intros t1 t2 [t [[Ho1 Hs1] [Ho2 Hs2]]] Hid1.
    destruct (String.eqb (id t) taskId) eqn:E.
    + apply String.eqb_eq in E.
      destruct (Hs1 E) as [_ [_ [_ [_ [_ [_ [_ [k1 [Hk1 Hu1]]]]]]]]].
      destruct (Hs2 Hid1) as [_ [_ [_ [_ [_ [_ [_ [k2 [Hk2 Hu2]]]]]]]]].
      unfold updatedAtAdvances. rewrite Hu1, Hu2. simpl.
      apply Hstrict. lia.
    + apply String.eqb_neq in E.
      rewrite (Ho1 E) in Hid1. contradiction.
  - intros Habsent. apply toggleTaskComplete_absent. exact Habsent.
Qed.

(** *** [addTask] *)

Lemma addTask_eq (data : TaskFormData) (s : Store) (w : World) :
  addTask clock random data s w
  = (mkStore (tasks s ++ [newTaskAt clock random (clockReads w) (randomDraws w) data])
             (editingTask s) (searchQuery s),
     mkWorld (clockReads w + 3) (randomDraws w + 1)).
Proof.
  unfold addTask, generateId, newDate, dateNow, mathRandom36, bind, ret, newTaskAt.
  simpl. rewrite !Nat.add_1_r.
  replace (clockReads w + 2)%nat with (S (S (clockReads w))) by lia.
  replace (clockReads w + 3)%nat with (S (S (S (clockReads w)))) by lia.
  reflexivity.
Qed.

Lemma run_addTasks (ds : list TaskFormData) :
  forall (s : Store) (w : World),
    run clock random (map OpAddTask ds) s w
    = (mkStore (tasks s ++ addedTasks clock random (clockReads w) (randomDraws w) ds)
               (editingTask s) (searchQuery s),
       mkWorld (clockReads w + 3 * List.length ds) (randomDraws w + List.length ds)).
Proof.
  induction ds as [|d ds IH]; intros s w; simpl.
  - unfold ret. rewrite app_nil_r, Nat.add_0_r, Nat.add_0_r.
    destruct s, w; reflexivity.
  - unfold bind. rewrite addTask_eq, IH. simpl.
    rewrite <- app_assoc. simpl.
    f_equal. f_equal; lia.
Qed.

Lemma addedTasks_length (c r : nat) (ds : list TaskFormData) :
  List.length (addedTasks clock random c r ds) = List.length ds.
Proof.
  revert c r. induction ds as [|d ds IH]; intros c r; simpl; [reflexivity|].
  rewrite IH. reflexivity.
Qed.

Lemma addedTasks_addedBy (ds : list TaskFormData) :
  forall c r lo,
    (lo <= c)%nat ->
    exists digits,
      List.length digits = List.length ds /\
      Forall2 (fun dg t => addedBy clock (fst dg) (snd dg) lo
                                   (c + 3 * List.length ds) t)
              (combine ds digits) (addedTasks clock random c r ds).
Proof.
  induction ds as [|d ds IH]; intros c r lo Hlo; simpl.
  - exists []. split; [reflexivity|constructor].
  - destruct (IH (c + 3)%nat (r + 1)%nat lo) as [digits [Hlen Hall]]; [lia|].
    exists (random r :: digits). split; [simpl; congruence|].
    simpl. constructor.
    + unfold addedBy, newTaskAt; simpl. repeat split.
      exists c. repeat split; lia.
    + replace (c + S (List.length ds + S (List.length ds + S (List.length ds + 0))))%nat
        with (c + 3 + 3 * List.length ds)%nat by lia.
      exact Hall.
Qed.

(** *** The order of the timestamps *)

Lemma stampedBefore_widen (n n' : nat) (t : Task) :
  (n <= n')%nat -> stampedBefore clock n t -> stampedBefore clock n' t.
Proof.
  intros Hn [i [j [Hij H]]]. exists i, j. split; [lia|exact H].
Qed.

Lemma Forall_through_Forall2 {A B} (P : A -> Prop) (R : A -> B -> Prop)
  (Q : B -> Prop) (l1 : list A) (l2 : list B) :
  (forall a b, P a -> R a b -> Q b) ->
  Forall P l1 -> Forall2 R l1 l2 -> Forall Q l2.
Proof.
  intros Himp HP HR. induction HR as [|a b l1 l2 Hab _ IH]; constructor.
  - inversion HP; subst. eapply Himp; eassumption.
  - apply IH. inversion HP; assumption.
Qed.

Lemma step_stampedBefore (op : Op) (s : Store) (w : World) :
  Forall (stampedBefore clock (clockReads w)) (tasks s) ->
  Forall (stampedBefore clock (clockReads (snd (step clock random op s w))))
         (tasks (fst (step clock random op s w))).
Proof.
  intros Hinv.
  destruct op as [d|d|i|i|t| | |q]; unfold step, ret; cbn [fst snd];
    try exact Hinv.
  - rewrite addTask_eq. simpl. apply Forall_app. split.
    + eapply Forall_impl; [|exact Hinv].
      intros t. apply stampedBefore_widen. lia.
    + constructor; [|constructor].
      exists (clockReads w + 1)%nat, (clockReads w + 2)%nat.
      split; [lia|]. split; reflexivity.
  - destruct (editingTask s) as [e|] eqn:He.
    + destruct (editTask_spec d s e w He) as [_ [_ [_ [Hc Hall]]]].
      eapply Forall_through_Forall2; [|exact Hinv|exact Hall].
      intros old new Hold [Hother Hsame].
      destruct (String.eqb (id old) (id e)) eqn:E.
      * apply String.eqb_eq in E.
        destruct (Hsame E) as [_ [_ [Hcr [_ [_ [_ [_ [k [Hk Hu]]]]]]]]].
        destruct Hold as [i0 [j0 [Hij [Hc0 _]]]].
        exists i0, k. split; [lia|]. split; congruence.
      * apply String.eqb_neq in E. rewrite (Hother E).
        eapply stampedBefore_widen; [exact Hc|exact Hold].
    + rewrite editTask_no_target by exact He. exact Hinv.
  - rewrite deleteTask_tasks. apply Forall_forall. intros t Ht.
    apply filter_In in Ht. destruct Ht as [Ht _].
    rewrite Forall_forall in Hinv. apply Hinv. exact Ht.
  - destruct (toggleTaskComplete_spec i s w) as [_ [_ [_ [Hc Hall]]]].
    eapply Forall_through_Forall2; [|exact Hinv|exact Hall].
    intros old new Hold [Hother Hsame].
    destruct (String.eqb (id old) i) eqn:E.
    + apply String.eqb_eq in E.
      destruct (Hsame E) as [_ [_ [_ [_ [_ [Hcr [_ [k [Hk Hu]]]]]]]]].
      destruct Hold as [i0 [j0 [Hij [Hc0 _]]]].
      exists i0, k. split; [lia|]. split; congruence.
    + apply String.eqb_neq in E. rewrite (Hother E).
      eapply stampedBefore_widen; [exact Hc|exact Hold].
  - constructor.
Qed.

Lemma reachable_stampedBefore (s : Store) (w : World) :
  reachable clock random s w ->
  Forall (stampedBefore clock (clockReads w)) (tasks s).
Proof.
  induction 1 as [w|s w op s' w' _ IH Hstep].
  - constructor.
  - pose proof (step_stampedBefore op s w IH) as H.
    rewrite Hstep in H. exact H.
Qed.

(** C9: under a clock that never goes back, every task of every store that
    a session can reach from the empty store has [createdAt] not later than
    [updatedAt]. *)
Theorem C9_createdAt_le_updatedAt :
  forall (s : Store) (w : World),
    nonDecreasing clock ->
    reachable clock random s w ->
    Forall createdBeforeUpdated (tasks s).
Proof.
  intros s w Hmono Hreach.
  eapply Forall_impl; [|exact (reachable_stampedBefore s w Hreach)].
  intros t [i [j [Hij [Hc Hu]]]].
  unfold createdBeforeUpdated. rewrite Hc, Hu. simpl.
  apply Hmono. lia.
Qed.

Lemma reachable_run (ops : list Op) :
  forall (s : Store) (w : World),
    reachable clock random s w ->
    reachable clock random (fst (run clock random ops s w))
              (snd (run clock random ops s w)).
Proof.
  induction ops as [|op ops IH]; intros s w Hreach; simpl.
  - exact Hreach.
  - unfold bind. destruct (step clock random op s w) as [s' w'] eqn:Hstep.
    apply IH. eapply reachable_step; eassumption.
Qed.

End Properties.

(** ** Properties of the Durable Store Adapter *)

Section Persistence.

Import DurableStore.

Lemma asTask_taskToJson (t : Task) : asTask (taskToJson t) = Some (revived t).
Proof.
  destruct t as [i ti de pr co du cr up].
  destruct de, du, pr; reflexivity.
Qed.

Lemma asTaskList_taskToJson (ts : list Task) :
  asTaskList (map taskToJson ts) = Some (map revived ts).
Proof.
  induction ts as [|t ts IH]; cbn [map asTaskList]; [reflexivity|].
  rewrite asTask_taskToJson, IH. reflexivity.
Qed.

Lemma read_after_write (ls : LocalStorage) (key : string) (value d : json) :
  getItemThrows ls = false -> setItemThrows ls = false ->
  read (write ls key value) key d = value.
Proof.
  intros Hget Hset. unfold read, write. rewrite Hset. simpl.
  rewrite Hget, String.eqb_refl. reflexivity.
Qed.

Lemma write_swallowed (ls : LocalStorage) (key : string) (value : json) :
  setItemThrows ls = true -> write ls key value = ls.
Proof. intros Hset. unfold write. rewrite Hset. reflexivity. Qed.

Lemma revived_holdsDateObjects (t : Task) : holdsDateObjects t -> revived t = t.
Proof.
  destruct t as [i ti de pr co du cr up].
  unfold holdsDateObjects, revived; simpl. intros [Hc [Hu Hd]].
  destruct cr; [|destruct Hc]. destruct up; [|destruct Hu].
  destruct du as [[due|due]|]; [|destruct Hd|]; reflexivity.
Qed.

Lemma map_revived_holdsDateObjects (ts : list Task) :
  Forall holdsDateObjects ts -> map revived ts = ts.
Proof.
  induction 1 as [|t ts Ht _ IH]; simpl; [reflexivity|].
  rewrite (revived_holdsDateObjects t Ht), IH. reflexivity.
Qed.

(** C2: a task list that has been persisted through the adapter (the
    storage took the write) and is then loaded into a fresh store (the
    storage lets itself be read) comes back equal to the original: the same
    tasks in the same order, each with the same id, title, description,
    priority, completed flag and, to the millisecond, the same [dueDate],
    [createdAt] and [updatedAt]; the fresh store edits nothing and has an
    empty search query.  The tasks are those of the [Task] interface, with
    [Date] objects as timestamps. *)
Theorem C2_persist_then_load :
  forall (ls : LocalStorage) (ts : list Task),
    getItemThrows ls = false ->
    setItemThrows ls = false ->
    Forall holdsDateObjects ts ->
    loadTasks (persistTasks ls ts) = ts /\
    freshStore (persistTasks ls ts) = mkStore ts None "".
Proof.
  intros ls ts Hget Hset Htyped.
  assert (Hload : loadTasks (persistTasks ls ts) = ts).
  { unfold loadTasks, persistTasks.
    rewrite read_after_write by assumption.
    unfold stringifyTasks, asTasks.
    rewrite asTaskList_taskToJson.
    apply map_revived_holdsDateObjects. exact Htyped. }
  split; [exact Hload|].
  unfold freshStore. rewrite Hload. reflexivity.
Qed.

End Persistence.

(** ** The properties at work on concrete sessions *)

Section Examples.

Import Samples DurableStore.

Lemma tickingClock_strictlyIncreasing : strictlyIncreasing tickingClock.
Proof. intros a b Hab. unfold tickingClock. lia. Qed.

Lemma tickingClock_nonDecreasing : nonDecreasing tickingClock.
Proof. intros a b Hab. unfold tickingClock. lia. Qed.

Lemma frozenClock_nonDecreasing : nonDecreasing frozenClock.
Proof. intros a b Hab. unfold frozenClock. lia. Qed.

Example toString36_samples :
  JsString.toString36 35 = "z" /\
  JsString.toString36 36 = "10" /\
  JsString.toString36 (-71) = "-1z" /\
  JsString.toString36 session0 = "loyw3v28".
Proof. repeat split. Qed.

Example trim_and_lowercase_samples :
  JsString.trim "  Task One " = "Task One" /\
  blank "   " = true /\
  JsString.toLowerCase "Task ONE" = "task one".
Proof. repeat split. Qed.

(** The search of the hook's tests: of the three tasks only "Task One"
    contains "One". *)
Example search_by_title :
  filteredTasks (setSearchQuery "One" (mkStore [taskOne; taskTwo; differentTask] None ""))
  = Ok [taskOne].
Proof. reflexivity. Qed.

(** An empty or blank query shows every task, also those without a
    description. *)
Example search_blank :
  filteredTasks (setSearchQuery "  " twoTasks) = Ok (tasks twoTasks).
Proof. reflexivity. Qed.

(** A task without a description is found by its title. *)
Example search_finds_undescribed_by_title :
  filteredTasks (setSearchQuery "MILK" twoTasks) = Ok [milkTask].
Proof. reflexivity. Qed.

(** Add "Buy milk", complete it, delete it: the statistics after each
    step. *)
Example buy_milk_scenario :
  let r1 := addTask tickingClock freshDigits buyMilk emptyStore world0 in
  let r2 := toggleTaskComplete tickingClock "loyw3v28rs" (fst r1) (snd r1) in
  let s3 := deleteTask "loyw3v28rs" (fst r2) in
  map id (tasks (fst r1)) = ["loyw3v28rs"] /\
  fst (taskStats tickingClock (fst r1) (snd r1)) = mkStats 1 0 1 0 /\
  fst (taskStats tickingClock (fst r2) (snd r2)) = mkStats 1 1 0 0 /\
  fst (taskStats tickingClock s3 (snd r2)) = mkStats 0 0 0 0.
Proof. vm_compute. repeat split. Qed.

Lemma C8_witness :
  editingTask twoTasks = None /\
  editTask frozenClock callMum twoTasks world0 = (twoTasks, world0).
Proof.
  split; [reflexivity|].
  apply (C8_editTask_without_target_is_noop frozenClock callMum twoTasks world0).
  reflexivity.
Defined.

Lemma C10_witness :
  editingTask editingGhost = Some ghostTask /\
  editTask tickingClock callMum editingGhost world0
  = (mkStore [milkTask; mumTask] None "milk", world0).
Proof.
  split; [reflexivity|].
  apply (C10_editTask_stale_target_clears_editing
           tickingClock callMum editingGhost ghostTask world0).
  - reflexivity.
  - intros t [<-|[<-|[]]]; simpl; discriminate.
Defined.

Lemma C7_witness :
  tasks (deleteTask "1" twoTasks) = [mumTask] /\
  tasks (deleteTask "7" twoTasks) = tasks twoTasks /\
  editingTask (deleteTask "9" editingGhost) = None.
Proof.
  split; [|split].
  - destruct (C7_deleteTask_removes_and_is_idempotent "1" twoTasks)
      as [_ [Hone _]].
    apply (Hone [] milkTask [mumTask]); [reflexivity|reflexivity|].
    intros u [<-|[]]; simpl; discriminate.
  - destruct (C7_deleteTask_removes_and_is_idempotent "7" twoTasks)
      as [_ [_ [Habsent _]]].
    apply Habsent. intros t [<-|[<-|[]]]; simpl; discriminate.
  - destruct (C7_deleteTask_removes_and_is_idempotent "9" editingGhost)
      as [_ [_ [_ [_ Hedit]]]].
    apply (Hedit ghostTask); reflexivity.
Defined.

Lemma C4_witness :
  In milkTask (tasks twoTasks) /\
  editingTask (fst (editTask tickingClock callMum
                      (startEditingTask milkTask twoTasks) (mkWorld 6 2))) = None /\
  Forall2 (fun old new => id old = id milkTask -> updatedAtAdvances old new)
          (tasks twoTasks)
          (tasks (fst (editTask tickingClock callMum
                         (startEditingTask milkTask twoTasks) (mkWorld 6 2)))).
Proof.
  pose proof (C4_editTask_changes_only_the_edited_task
                tickingClock twoTasks milkTask callMum (mkWorld 6 2)
                (or_introl eq_refl)) as H.
  cbv zeta in H. destruct H as [Hed [_ [_ [_ Hadv]]]].
  split; [left; reflexivity|]. split; [exact Hed|].
  apply Hadv. clear Hed Hadv.
  intros u k [<-|[<-|[]]] Hk; unfold tickingClock;
    cbn [getTime updatedAt milkTask mumTask clockReads] in *; lia.
Defined.

Lemma C5_witness :
  strictlyIncreasing tickingClock /\
  map completed
      (tasks (fst (toggleTaskComplete tickingClock "2"
                     (fst (toggleTaskComplete tickingClock "2" twoTasks world0))
                     (snd (toggleTaskComplete tickingClock "2" twoTasks world0)))))
  = map completed (tasks twoTasks) /\
  Forall2 (fun t1 t2 => id t1 = "2" -> updatedAtAdvances t1 t2)
     (tasks (fst (toggleTaskComplete tickingClock "2" twoTasks world0)))
     (tasks (fst (toggleTaskComplete tickingClock "2"
                    (fst (toggleTaskComplete tickingClock "2" twoTasks world0))
                    (snd (toggleTaskComplete tickingClock "2" twoTasks world0))))) /\
  toggleTaskComplete tickingClock "zzz" twoTasks world0 = (twoTasks, world0).
Proof.
  split; [exact tickingClock_strictlyIncreasing|]. split; [reflexivity|]. split.
  - pose proof (C5_toggleTaskComplete_twice tickingClock twoTasks "2" world0) as H.
    cbv zeta in H. destruct H as [_ [_ [_ [_ [Hsecond _]]]]].
    apply Hsecond. exact tickingClock_strictlyIncreasing.
  - pose proof (C5_toggleTaskComplete_twice tickingClock twoTasks "zzz" world0) as H.
    cbv zeta in H. destruct H as [_ [_ [_ [_ [_ Habsent]]]]].
    apply Habsent. intros t [<-|[<-|[]]]; simpl; discriminate.
Defined.

Lemma C9_witness :
  nonDecreasing tickingClock /\
  Forall createdBeforeUpdated
         (tasks (fst (run tickingClock freshDigits shortSession emptyStore world0))).
Proof.
  split; [exact tickingClock_nonDecreasing|].
  apply (C9_createdAt_le_updatedAt tickingClock freshDigits _
           (snd (run tickingClock freshDigits shortSession emptyStore world0))).
  - exact tickingClock_nonDecreasing.
  - apply reachable_run. apply reachable_init.
Defined.

(** C4 as stated fails: an edit made in the millisecond of the previous
    update leaves [updatedAt] where it was. *)
Lemma C4_counterexample :
  In milkTask (tasks twoTasks) /\
  exists new,
    nth_error (tasks (fst (editTask frozenClock callMum
                             (startEditingTask milkTask twoTasks) world0))) 0
    = Some new /\
    id new = id milkTask /\
    ~ updatedAtAdvances milkTask new.
Proof.
  split; [left; reflexivity|].
  eexists. split; [vm_compute; reflexivity|]. split; [reflexivity|].
  intros H. vm_compute in H. discriminate H.
Qed.

(** C5 as stated fails: two toggles made in the millisecond of the previous
    update flip [completed] twice and leave [updatedAt] where it was, on
    both calls. *)
Lemma C5_counterexample :
  exists t1 t2,
    nth_error (tasks (fst (toggleTaskComplete frozenClock "1" twoTasks world0))) 0
    = Some t1 /\
    nth_error
      (tasks (fst (toggleTaskComplete frozenClock "1"
                     (fst (toggleTaskComplete frozenClock "1" twoTasks world0))
                     (snd (toggleTaskComplete frozenClock "1" twoTasks world0))))) 0
    = Some t2 /\
    id t1 = id milkTask /\ id t2 = id milkTask /\
    completed t2 = completed milkTask /\
    ~ updatedAtAdvances milkTask t1 /\
    ~ updatedAtAdvances t1 t2.
Proof.
  eexists. eexists.
  split; [vm_compute; reflexivity|]. split; [vm_compute; reflexivity|].
  repeat split; try reflexivity; intros H; vm_compute in H; discriminate H.
Qed.

End Examples.

(** ** Further properties of the search *)

Section SearchProperties.

Import Samples MoreSamples.

Lemma lowerChar_idempotent (c : ascii) :
  JsString.lowerChar (JsString.lowerChar c) = JsString.lowerChar c.
Proof. destruct c as [[] [] [] [] [] [] [] []]; reflexivity. Qed.

Lemma lowerChar_isWhiteSpace (c : ascii) :
  JsString.isWhiteSpace (JsString.lowerChar c) = JsString.isWhiteSpace c.
Proof. destruct c as [[] [] [] [] [] [] [] []]; reflexivity. Qed.

Lemma toLowerCase_idempotent (s : string) :
  JsString.toLowerCase (JsString.toLowerCase s) = JsString.toLowerCase s.
Proof.
  induction s as [|c s IH]; simpl; [reflexivity|].
  rewrite lowerChar_idempotent, IH. reflexivity.
Qed.

Lemma allWhiteSpace_toLowerCase (s : string) :
  allWhiteSpace (JsString.toLowerCase s) = allWhiteSpace s.
Proof.
  induction s as [|c s IH]; simpl; [reflexivity|].
  rewrite lowerChar_isWhiteSpace, IH. reflexivity.
Qed.

Lemma allWhiteSpace_trimStart (s : string) :
  allWhiteSpace (JsString.trimStart s) = allWhiteSpace s.
Proof.
  induction s as [|c s IH]; simpl; [reflexivity|].
  destruct (JsString.isWhiteSpace c) eqn:E; simpl; [exact IH|].
  rewrite E. reflexivity.
Qed.

Lemma trimEnd_empty (s : string) :
  JsString.truthy (JsString.trimEnd s) = negb (allWhiteSpace s).
Proof.
  induction s as [|c s IH]; simpl; [reflexivity|].
  destruct (JsString.trimEnd s) as [|c' r]; simpl in *.
  - apply (f_equal negb) in IH. rewrite negb_involutive in IH.
    rewrite <- IH, andb_true_r.
    destruct (JsString.isWhiteSpace c); reflexivity.
  - apply (f_equal negb) in IH. rewrite negb_involutive in IH.
    rewrite <- IH, andb_false_r. reflexivity.
Qed.

Lemma blank_allWhiteSpace (query : string) : blank query = allWhiteSpace query.
Proof.
  unfold blank, JsString.trim.
  rewrite trimEnd_empty, negb_involutive. apply allWhiteSpace_trimStart.
Qed.

(** X1: a query made of white space only (or empty) switches the search
    off: the view is the whole list, whatever the tasks hold. *)
Theorem X1_whitespace_query_shows_all :
  forall (s : Store),
    allWhiteSpace (searchQuery s) = true ->
    filteredTasks s = Ok (tasks s).
Proof.
  intros s Hws. apply filteredTasks_blank.
  rewrite blank_allWhiteSpace. exact Hws.
Qed.

(** X2: the search does not look at the letter case of the query: two
    queries with the same lower-case form give the same view (and fail on
    the same stores). *)
Theorem X2_search_ignores_case_of_query :
  forall (ts : list Task) (e : option Task) (q1 q2 : string),
    JsString.toLowerCase q1 = JsString.toLowerCase q2 ->
    filteredTasks (mkStore ts e q1) = filteredTasks (mkStore ts e q2).
Proof.
  intros ts e q1 q2 Hq. unfold filteredTasks; simpl.
  fold (blank q1). fold (blank q2).
  assert (Hb : blank q1 = blank q2).
  { rewrite !blank_allWhiteSpace.
    rewrite <- (allWhiteSpace_toLowerCase q1), <- (allWhiteSpace_toLowerCase q2).
    rewrite Hq. reflexivity. }
  rewrite Hb, Hq. reflexivity.
Qed.

(** X3: with a query that is not blank, the search throws exactly when the
    list holds a task that has no description and whose title does not
    contain the query. *)
Theorem X3_search_throws_iff :
  forall (s : Store),
    blank (searchQuery s) = false ->
    (filteredTasks s = Throw_TypeError
     <-> exists t, In t (tasks s) /\ description t = None /\
           JsString.includes (JsString.toLowerCase (title t))
                             (JsString.toLowerCase (searchQuery s)) = false).
Proof.
  intros s Hb. unfold filteredTasks. fold (blank (searchQuery s)).
  rewrite Hb. apply filterR_matchesQuery_throws.
Qed.

Lemma filterR_matchesQuery_value (query : string) (ts r : list Task) :
  filterR (matchesQuery query) ts = Ok r -> r = filter (matchesText query) ts.
Proof.
  revert r. induction ts as [|t ts IH]; intros r; simpl.
  - intros H. injection H as <-. reflexivity.
  - unfold matchesQuery at 1, matchesText at 1.
    destruct (JsString.includes (JsString.toLowerCase (title t)) query); simpl.
    + destruct (filterR (matchesQuery query) ts) as [r0|]; [|discriminate].
      intros H. injection H as <-. rewrite (IH r0 eq_refl). reflexivity.
    + destruct (description t) as [d|]; [|discriminate].
      destruct (filterR (matchesQuery query) ts) as [r0|]; [|discriminate].
      intros H. injection H as <-. rewrite (IH r0 eq_refl). reflexivity.
Qed.

(** X4: whenever the search returns, with a query that is not blank, it
    returns the tasks whose lower-cased title or description contains the
    lower-cased query, in the order of the list and nothing else. *)
Theorem X4_search_result :
  forall (s : Store) (r : list Task),
    blank (searchQuery s) = false ->
    filteredTasks s = Ok r ->
    r = filter (matchesText (JsString.toLowerCase (searchQuery s))) (tasks s).
Proof.
  intros s r Hb. unfold filteredTasks. fold (blank (searchQuery s)).
  rewrite Hb. simpl. apply filterR_matchesQuery_value.
Qed.

Lemma step_allDescribed (clock : nat -> Z) (random : nat -> string)
  (op : Op) (s : Store) (w : World) :
  suppliesDescription op -> allDescribed s ->
  allDescribed (fst (step clock random op s w)).
Proof.
  intros Hop Hs. unfold allDescribed in *.
  destruct op as [d|d|i|i|t| | |q]; unfold step, ret; cbn [fst]; try exact Hs.
  - rewrite addTask_eq. cbn [fst tasks]. intros t Ht.
    apply in_app_or in Ht. destruct Ht as [Ht|[<-|[]]]; [apply Hs, Ht|exact Hop].
  - destruct (editingTask s) as [e|] eqn:He.
    + destruct (editTask_spec clock d s e w He) as [_ [_ [_ [_ Hall]]]].
      intros new Hnew.
      assert (Hback : exists old, In old (tasks s) /\
                editedBy clock (id e) d (clockReads w)
                  (clockReads (snd (editTask clock d s w))) old new).
      { clear -Hall Hnew.
        induction Hall as [|a b l1 l2 Hab _ IH]; [destruct Hnew|].
        destruct Hnew as [<-|Hnew].
        - exists a. split; [left; reflexivity|exact Hab].
        - destruct (IH Hnew) as [old [Ho Hr]]. exists old.
          split; [right; exact Ho|exact Hr]. }
      destruct Hback as [old [Hold [Hother Hsame]]].
      destruct (String.eqb (id old) (id e)) eqn:E.
      * apply String.eqb_eq in E.
        destruct (Hsame E) as [_ [_ [_ [_ [Hd _]]]]]. rewrite Hd. exact Hop.
      * apply String.eqb_neq in E. rewrite (Hother E). apply Hs, Hold.
    + rewrite editTask_no_target by exact He. exact Hs.
  - rewrite deleteTask_tasks. intros t Ht. apply filter_In in Ht.
    apply Hs, Ht.
  - destruct (toggleTaskComplete_spec clock i s w) as [_ [_ [_ [_ Hall]]]].
    intros new Hnew.
    assert (Hback : exists old, In old (tasks s) /\
              toggledBy clock i (clockReads w)
                (clockReads (snd (toggleTaskComplete clock i s w))) old new).
    { clear -Hall Hnew.
      induction Hall as [|a b l1 l2 Hab _ IH]; [destruct Hnew|].
      destruct Hnew as [<-|Hnew].
      - exists a. split; [left; reflexivity|exact Hab].
      - destruct (IH Hnew) as [old [Ho Hr]]. exists old.
        split; [right; exact Ho|exact Hr]. }
    destruct Hback as [old [Hold [Hother Hsame]]].
    destruct (String.eqb (id old) i) eqn:E.
    + apply String.eqb_eq in E.
      destruct (Hsame E) as [_ [_ [Hd _]]]. rewrite Hd. apply Hs, Hold.
    + apply String.eqb_neq in E. rewrite (Hother E). apply Hs, Hold.
  - intros t [].
Qed.

Lemma run_allDescribed (clock : nat -> Z) (random : nat -> string)
  (ops : list Op) :
  forall (s : Store) (w : World),
    Forall suppliesDescription ops -> allDescribed s ->
    allDescribed (fst (run clock random ops s w)).
Proof.
  induction ops as [|op ops IH]; intros s w Hops Hs; simpl; [exact Hs|].
  unfold bind. inversion Hops as [|op' ops' Hop Hrest]; subst.
  pose proof (step_allDescribed clock random op s w Hop Hs) as Hstep.
  destruct (step clock random op s w) as [s' w']. apply IH; assumption.
Qed.

(** X5: a session in which every [addTask] and [editTask] is given a
    description (as the form does, which sends the text of its description
    box) keeps every task described, and the search then never throws: for
    every query it returns the plain filter on title or description. *)
Theorem X5_search_safe_when_descriptions_supplied :
  forall (clock : nat -> Z) (random : nat -> string)
         (ops : list Op) (s : Store) (w : World) (query : string),
    allDescribed s ->
    Forall suppliesDescription ops ->
    let s' := setSearchQuery query (fst (run clock random ops s w)) in
    allDescribed s' /\
    filteredTasks s'
    = Ok (if blank query then tasks s'
          else filter (matchesText (JsString.toLowerCase query)) (tasks s')).
Proof.
  intros clock random ops s w query Hs Hops s'.
  assert (Hd : allDescribed s').
  { unfold s', allDescribed. simpl.
    apply (run_allDescribed clock random ops s w Hops Hs). }
  split; [exact Hd|].
  destruct (blank query) eqn:Hb.
  - apply filteredTasks_blank. exact Hb.
  - rewrite filteredTasks_all_described; [reflexivity|exact Hb|exact Hd].
Qed.

End SearchProperties.

(** ** Further properties of the operations and of the statistics *)

Section StoreProperties.

Variable clock : nat -> Z.
Variable random : nat -> string.

Lemma countIf_negb {A} (p : A -> bool) (l : list A) :
  (countIf p l + countIf (fun a => negb (p a)) l = List.length l)%nat.
Proof.
  induction l as [|a l IH]; simpl; [reflexivity|].
  destruct (p a); simpl; lia.
Qed.

Lemma filterM_overdueNow_bound (ts : list Task) :
  forall w,
    (List.length (fst (filterM (overdueNow clock) ts w))
     <= countIf (fun t => negb (completed t)
                          && match dueDate t with Some _ => true | None => false end)
                ts)%nat.
Proof.
  induction ts as [|t ts IH]; intros w; simpl; [lia|].
  unfold bind.
  destruct (overdueNow clock t w) as [b w1] eqn:E.
  specialize (IH w1).
  destruct (filterM (overdueNow clock) ts w1) as [r w2]; simpl in *.
  unfold overdueNow in E.
  destruct (dueDate t) as [d|].
  - destruct (completed t); simpl.
    + injection E as <- _. lia.
    + destruct b; simpl; lia.
  - injection E as <- _. rewrite andb_false_r. simpl. lia.
Qed.

(** X6: whatever the clock does, the four counters fit together: completed
    and pending add up to the total, none is negative, and the overdue tasks
    are at most the pending tasks that carry a due date. *)
Theorem X6_taskStats_consistent :
  forall (s : Store) (w : World),
    let st := fst (taskStats clock s w) in
    (completedCount st + pending st = total st /\
     0 <= completedCount st /\ 0 <= pending st /\
     0 <= overdue st <= pending st /\
     overdue st
     <= Z.of_nat (countIf (fun t => match dueDate t with
                                    | Some _ => true | None => false end)
                          (tasks s)))%Z.
Proof.
  intros s w st. unfold st, taskStats, bind.
  pose proof (filterM_overdueNow_bound (tasks s) w) as Hod.
  destruct (filterM (overdueNow clock) (tasks s) w) as [od w']; simpl in *.
  rewrite filter_length_countIf.
  pose proof (countIf_negb completed (tasks s)) as Hsum.
  assert (H1 : (countIf (fun t => negb (completed t)
                  && match dueDate t with Some _ => true | None => false end)
                  (tasks s)
                <= countIf (fun t => negb (completed t)) (tasks s))%nat).
  { clear. induction (tasks s) as [|t l IH]; simpl; [lia|].
    destruct (completed t), (dueDate t); simpl; lia. }
  assert (H2 : (countIf (fun t => negb (completed t)
                  && match dueDate t with Some _ => true | None => false end)
                  (tasks s)
                <= countIf (fun t => match dueDate t with
                                     | Some _ => true | None => false end)
                           (tasks s))%nat).
  { clear. induction (tasks s) as [|t l IH]; simpl; [lia|].
    destruct (completed t), (dueDate t); simpl; lia. }
  lia.
Qed.

Lemma Forall2_map_eq {A B} (f : A -> B) (R : A -> A -> Prop) (l1 l2 : list A) :
  (forall a b, R a b -> f b = f a) ->
  Forall2 R l1 l2 -> map f l2 = map f l1.
Proof.
  intros Hf H. induction H as [|a b l1 l2 Hab _ IH]; simpl; [reflexivity|].
  rewrite (Hf a b Hab), IH. reflexivity.
Qed.

Lemma editedBy_id (target : string) (data : TaskFormData) (lo hi : nat)
  (old new : Task) :
  editedBy clock target data lo hi old new -> id new = id old.
Proof.
  intros [Hother Hsame].
  destruct (String.eqb (id old) target) eqn:E.
  - apply String.eqb_eq in E. apply (Hsame E).
  - apply String.eqb_neq in E. rewrite (Hother E). reflexivity.
Qed.

Lemma toggledBy_id (target : string) (lo hi : nat) (old new : Task) :
  toggledBy clock target lo hi old new -> id new = id old.
Proof.
  intros [Hother Hsame].
  destruct (String.eqb (id old) target) eqn:E.
  - apply String.eqb_eq in E. apply (Hsame E).
  - apply String.eqb_neq in E. rewrite (Hother E). reflexivity.
Qed.

Lemma editTask_ids (data : TaskFormData) (s : Store) (w : World) :
  map id (tasks (fst (editTask clock data s w))) = map id (tasks s).
Proof.
  destruct (editingTask s) as [e|] eqn:He.
  - destruct (editTask_spec clock data s e w He) as [_ [_ [_ [_ Hall]]]].
    eapply Forall2_map_eq; [|exact Hall].
    intros a b. apply editedBy_id.
  - rewrite editTask_no_target by exact He. reflexivity.
Qed.

Lemma toggleTaskComplete_ids (taskId : string) (s : Store) (w : World) :
  map id (tasks (fst (toggleTaskComplete clock taskId s w))) = map id (tasks s).
Proof.
  destruct (toggleTaskComplete_spec clock taskId s w) as [_ [_ [_ [_ Hall]]]].
  eapply Forall2_map_eq; [|exact Hall].
  intros a b. apply toggledBy_id.
Qed.

(** X7: [editTask] and [toggleTaskComplete] never add, remove or reorder
    tasks: the list of ids after the call is the list of ids before, for
    every argument and every state. *)
Theorem X7_edit_and_toggle_keep_the_ids :
  forall (data : TaskFormData) (taskId : string) (s : Store) (w : World),
    map id (tasks (fst (editTask clock data s w))) = map id (tasks s) /\
    map id (tasks (fst (toggleTaskComplete clock taskId s w))) = map id (tasks s).
Proof.
  intros data taskId s w. split.
  - apply editTask_ids.
  - apply toggleTaskComplete_ids.
Qed.

Lemma mapM_editOne_same_id (e1 e2 : Task) (data : TaskFormData) (ts : list Task) :
  id e1 = id e2 ->
  forall w, mapM (editOne clock e1 data) ts w = mapM (editOne clock e2 data) ts w.
Proof.
  intros Hid. induction ts as [|t ts IH]; intros w; simpl; [reflexivity|].
  unfold bind. unfold editOne at 1 3. rewrite Hid.
  destruct (String.eqb (id t) (id e2)); simpl; rewrite IH; reflexivity.
Qed.

(** X8: [editTask] uses of the task being edited nothing but its id: two
    snapshots with the same id, however stale their other fields, lead to
    the same result. *)
Theorem X8_editTask_resolves_by_id :
  forall (data : TaskFormData) (s : Store) (e1 e2 : Task) (w : World),
    id e1 = id e2 ->
    editTask clock data (startEditingTask e1 s) w
    = editTask clock data (startEditingTask e2 s) w.
Proof.
  intros data s e1 e2 w Hid. unfold editTask, startEditingTask, bind; simpl.
  rewrite (mapM_editOne_same_id e1 e2 data (tasks s) Hid w). reflexivity.
Qed.

Lemma deleteTask_ids (taskId : string) (s : Store) :
  map id (tasks (deleteTask taskId s))
  = filter (fun i => negb (String.eqb i taskId)) (map id (tasks s)).
Proof.
  rewrite deleteTask_tasks.
  induction (tasks s) as [|t ts IH]; simpl; [reflexivity|].
  destruct (String.eqb (id t) taskId); simpl; rewrite IH; reflexivity.
Qed.

(** X9: after [deleteTask id] no task carries that id, whether it occurred
    once, several times or not at all; ids that were pairwise distinct stay
    so; and the list shrinks by the number of tasks that carried the id. *)
Theorem X9_deleteTask_leaves_no_such_id :
  forall (taskId : string) (s : Store),
    ~ In taskId (map id (tasks (deleteTask taskId s))) /\
    (NoDup (map id (tasks s)) -> NoDup (map id (tasks (deleteTask taskId s)))) /\
    (List.length (tasks (deleteTask taskId s))
     + countIf (fun t => String.eqb (id t) taskId) (tasks s)
     = List.length (tasks s))%nat.
Proof.
  intros taskId s. split; [|split].
  - rewrite deleteTask_ids. intros Hin. apply filter_In in Hin.
    destruct Hin as [_ Hne]. rewrite String.eqb_refl in Hne. discriminate.
  - intros Hnd. rewrite deleteTask_ids. apply NoDup_filter. exact Hnd.
  - rewrite deleteTask_tasks. rewrite filter_length_countIf.
    pose proof (countIf_negb (fun t => String.eqb (id t) taskId) (tasks s)).
    lia.
Qed.

(** X10: deletions commute: deleting two ids in either order gives the
    same store, the task being edited included. *)
Theorem X10_deleteTask_commutes :
  forall (a b : string) (s : Store),
    deleteTask a (deleteTask b s) = deleteTask b (deleteTask a s).
Proof.
  intros a b [ts ed q]. unfold deleteTask; simpl.
  assert (Hf : filter (fun task => negb (String.eqb (id task) a))
                 (filter (fun task => negb (String.eqb (id task) b)) ts)
               = filter (fun task => negb (String.eqb (id task) b))
                   (filter (fun task => negb (String.eqb (id task) a)) ts)).
  { induction ts as [|t ts IH]; simpl; [reflexivity|].
    destruct (String.eqb (id t) a) eqn:Ea, (String.eqb (id t) b) eqn:Eb;
      simpl; rewrite ?Ea, ?Eb; simpl; rewrite IH; reflexivity. }
  destruct ed as [e|]; simpl.
  - destruct (String.eqb (id e) a) eqn:Ea, (String.eqb (id e) b) eqn:Eb;
      simpl; rewrite ?Ea, ?Eb; simpl; rewrite Hf; reflexivity.
  - rewrite Hf. reflexivity.
Qed.

(** X11: adding a task and deleting it again by its id gives back the task
    list, provided the generated id is not one that the list already
    holds. *)
Theorem X11_add_then_delete :
  forall (data : TaskFormData) (s : Store) (w : World),
    let r := addTask clock random data s w in
    let newId := (JsString.toString36 (clock (clockReads w))
                  ++ random (randomDraws w))%string in
    ~ In newId (map id (tasks s)) ->
    map id (tasks (fst r)) = map id (tasks s) ++ [newId] /\
    tasks (deleteTask newId (fst r)) = tasks s.
Proof.
  intros data s w r newId Hfresh. unfold r. rewrite addTask_eq. cbn [fst].
  split.
  - cbn [tasks]. rewrite map_app. reflexivity.
  - rewrite deleteTask_tasks. cbn [tasks]. rewrite filter_app. simpl.
    fold newId. rewrite String.eqb_refl. simpl. rewrite app_nil_r.
    apply filter_unchanged. intros t Ht.
    apply negb_true_iff, String.eqb_neq. intros Heq.
    apply Hfresh. rewrite <- Heq. apply in_map. exact Ht.
Qed.

(** *** The OVERDUE badge of the card and the overdue counter *)

Lemma isOverdue_at (now : Z) (t : Task) (w : World) :
  clock (clockReads w) = now ->
  fst (TaskCard.isOverdue clock t w) = overdueAt now t.
Proof.
  intros Hnow. unfold TaskCard.isOverdue, overdueAt.
  destruct (dueDate t) as [d|].
  - unfold bind, newDate, dateNow, bind, ret. cbn [getTime newDateOf].
    rewrite Hnow.
    destruct (getTime d <? now)%Z; cbn [fst];
      [rewrite andb_true_r|rewrite andb_false_r]; reflexivity.
  - unfold ret. cbn [fst]. rewrite andb_false_r. reflexivity.
Qed.

Lemma taskStats_overdue_at (s : Store) (w : World) (now : Z) :
  (forall k, clock k = now) ->
  overdue (fst (taskStats clock s w))
  = Z.of_nat (countIf (overdueAt now) (tasks s)).
Proof.
  intros Hnow. unfold taskStats, bind.
  pose proof (filterM_overdueNow_at clock now (tasks s) w
                (fun k _ => Hnow k)) as Hod.
  destruct (filterM (overdueNow clock) (tasks s) w) as [od w']; simpl in *.
  rewrite Hod, filter_length_countIf. reflexivity.
Qed.

(** X12: rendered while the clock shows one instant, the cards and the
    statistics agree: the overdue counter is the number of tasks whose card
    shows the OVERDUE badge. *)
Theorem X12_overdue_counter_matches_badges :
  forall (s : Store) (now : Z) (w : World) (cardWorld : Task -> World),
    (forall k, clock k = now) ->
    overdue (fst (taskStats clock s w))
    = Z.of_nat (countIf (fun t => fst (TaskCard.isOverdue clock t (cardWorld t)))
                        (tasks s)).
Proof.
  intros s now w cardWorld Hnow.
  rewrite (taskStats_overdue_at s w now Hnow). f_equal.
  induction (tasks s) as [|t ts IH]; simpl; [reflexivity|].
  rewrite (isOverdue_at now t (cardWorld t)) by apply Hnow.
  rewrite IH. reflexivity.
Qed.

End StoreProperties.

(** ** The generated ids *)

Section IdProperties.

Variable clock : nat -> Z.
Variable random : nat -> string.

Lemma string_app_assoc (a b c : string) :
  ((a ++ b) ++ c = a ++ (b ++ c))%string.
Proof. induction a as [|x a IH]; simpl; [reflexivity|]. rewrite IH. reflexivity. Qed.

Lemma string_app_length (a b : string) :
  String.length (a ++ b) = (String.length a + String.length b)%nat.
Proof. induction a as [|x a IH]; simpl; [reflexivity|]. rewrite IH. reflexivity. Qed.

Lemma string_app_same_length (a b r1 r2 : string) :
  String.length a = String.length b ->
  (a ++ r1 = b ++ r2)%string -> a = b.
Proof.
  revert b. induction a as [|x a IH]; intros [|y b] Hlen Heq;
    simpl in *; try discriminate; [reflexivity|].
  injection Heq as Hx Hrest. injection Hlen as Hlen.
  rewrite Hx, (IH b Hlen Hrest). reflexivity.
Qed.

Lemma toString36_digits_acc (fuel : nat) :
  forall (n : N) (acc : string),
    JsString.toString36_digits fuel n acc
    = (JsString.toString36_digits fuel n EmptyString ++ acc)%string.
Proof.
  induction fuel as [|fuel IH]; intros n acc; [reflexivity|].
  cbn [JsString.toString36_digits].
  destruct (n / 36 =? 0)%N; [reflexivity|].
  rewrite (IH (n / 36)%N (String _ acc)), (IH (n / 36)%N (String _ EmptyString)).
  rewrite string_app_assoc. reflexivity.
Qed.

Lemma valueOf36_app (s1 s2 : string) :
  forall acc, valueOf36 acc (s1 ++ s2) = valueOf36 (valueOf36 acc s1) s2.
Proof.
  induction s1 as [|c s1 IH]; intros acc; simpl; [reflexivity|]. apply IH.
Qed.

Lemma digitValue36_digit36 (d : N) :
  (d < 36)%N -> digitValue36 (JsString.digit36 d) = d.
Proof.
  intros Hd.
  assert (Hall : forallb (fun k => (digitValue36 (JsString.digit36 (N.of_nat k))
                                    =? N.of_nat k)%N) (seq 0 36) = true)
    by reflexivity.
  rewrite forallb_forall in Hall.
  specialize (Hall (N.to_nat d)). rewrite N2Nat.id in Hall.
  apply N.eqb_eq, Hall, in_seq. lia.
Qed.

Lemma valueOf36_digits (fuel : nat) :
  forall n, (0 < n)%N -> (n < 2 ^ N.of_nat fuel)%N ->
            valueOf36 0 (JsString.toString36_digits fuel n EmptyString) = n.
Proof.
  induction fuel as [|fuel IH]; intros n Hpos Hlt.
  - simpl in Hlt. lia.
  - cbn [JsString.toString36_digits].
    assert (Hmod : (n mod 36 < 36)%N) by (apply N.mod_lt; discriminate).
    destruct (N.eqb_spec (n / 36) 0) as [Hq|Hq].
    + simpl. rewrite digitValue36_digit36 by exact Hmod.
      pose proof (N.Div0.div_mod n 36) as Hdm. rewrite Hq in Hdm. lia.
    + rewrite toString36_digits_acc, valueOf36_app, IH.
      * simpl. rewrite digitValue36_digit36 by exact Hmod.
        pose proof (N.Div0.div_mod n 36) as Hdm. lia.
      * apply N.neq_0_lt_0. exact Hq.
      * apply N.Div0.div_lt_upper_bound.
        rewrite Nat2N.inj_succ, N.pow_succ_r' in Hlt.
        eapply N.lt_le_trans; [exact Hlt|].
        apply N.mul_le_mono_r. discriminate.
Qed.

Lemma toString36_value (z : Z) :
  (0 <= z)%Z -> valueOf36 0 (JsString.toString36 z) = Z.to_N z.
Proof.
  destruct z as [|p|p]; intros Hz; [reflexivity| |lia].
  unfold JsString.toString36. rewrite valueOf36_digits; [reflexivity|lia|].
  rewrite N2Nat.id. apply N.size_gt.
Qed.

Lemma toString36_injective (a b : Z) :
  (0 <= a)%Z -> (0 <= b)%Z ->
  JsString.toString36 a = JsString.toString36 b -> a = b.
Proof.
  intros Ha Hb Heq. apply (f_equal (valueOf36 0)) in Heq.
  rewrite !toString36_value in Heq by assumption. lia.
Qed.

(** X13: the base-36 text of a clock reading denotes that reading: reading
    the digits back gives the number, so two different readings (not
    negative) never have the same text. *)
Theorem X13_toString36_round_trip :
  forall (a b : Z),
    (0 <= a)%Z -> (0 <= b)%Z ->
    valueOf36 0 (JsString.toString36 a) = Z.to_N a /\
    (JsString.toString36 a = JsString.toString36 b -> a = b).
Proof.
  intros a b Ha Hb. split.
  - apply toString36_value, Ha.
  - apply toString36_injective; assumption.
Qed.

Lemma toString36_digits_length (k : nat) :
  forall (fuel : nat) (n : N) (acc : string),
    (36 ^ N.of_nat k <= n)%N -> (n < 36 ^ N.of_nat (S k))%N ->
    (n < 2 ^ N.of_nat fuel)%N ->
    String.length (JsString.toString36_digits fuel n acc)
    = (S k + String.length acc)%nat.
Proof.
  induction k as [|k IH]; intros fuel n acc Hlo Hhi Hfuel.
  - destruct fuel as [|fuel]; [simpl in *; lia|].
    cbn [JsString.toString36_digits].
    assert (Hq : (n / 36 = 0)%N) by (apply N.div_small; simpl in Hhi; lia).
    rewrite Hq. reflexivity.
  - destruct fuel as [|fuel].
    { simpl in Hfuel.
      assert (36 ^ N.of_nat (S k) <> 0)%N by (apply N.pow_nonzero; discriminate).
      lia. }
    cbn [JsString.toString36_digits].
    rewrite Nat2N.inj_succ, N.pow_succ_r' in Hlo.
    rewrite (Nat2N.inj_succ (S k)), N.pow_succ_r' in Hhi.
    assert (Hqlo : (36 ^ N.of_nat k <= n / 36)%N)
      by (apply N.div_le_lower_bound; [discriminate|exact Hlo]).
    assert (Hqhi : (n / 36 < 36 ^ N.of_nat (S k))%N)
      by (apply N.Div0.div_lt_upper_bound; exact Hhi).
    assert (Hpos : (36 ^ N.of_nat k <> 0)%N) by (apply N.pow_nonzero; discriminate).
    destruct (N.eqb_spec (n / 36) 0) as [Hq|Hq]; [lia|].
    rewrite IH; try assumption.
    + simpl. lia.
    + apply N.Div0.div_lt_upper_bound.
      rewrite Nat2N.inj_succ, N.pow_succ_r' in Hfuel.
      eapply N.lt_le_trans; [exact Hfuel|].
      apply N.mul_le_mono_r. discriminate.
Qed.

Lemma toString36_eightDigits (t : Z) :
  eightDigits t -> String.length (JsString.toString36 t) = 8%nat.
Proof.
  intros [Hlo Hhi]. destruct t as [|p|p]; try (simpl in Hlo; lia).
  unfold JsString.toString36.
  rewrite (toString36_digits_length 7).
  - reflexivity.
  - change (36 ^ N.of_nat 7)%N with (Z.to_N (36 ^ 7)). lia.
  - change (36 ^ N.of_nat 8)%N with (Z.to_N (36 ^ 8)). lia.
  - rewrite N2Nat.id. apply N.size_gt.
Qed.

Lemma ids_of_different_instants (t1 t2 : Z) (r1 r2 : string) :
  eightDigits t1 -> eightDigits t2 -> t1 <> t2 ->
  (JsString.toString36 t1 ++ r1 <> JsString.toString36 t2 ++ r2)%string.
Proof.
  intros H1 H2 Hne Heq. apply Hne.
  apply string_app_same_length in Heq;
    [|rewrite !toString36_eightDigits by assumption; reflexivity].
  destruct H1 as [H1 _], H2 as [H2 _].
  apply (toString36_injective t1 t2); [lia|lia|exact Heq].
Qed.

(** X14: between 1972 and 2059 the clock part of an id has eight digits,
    and two ids generated at different milliseconds differ whatever the
    random digits are. *)
Theorem X14_ids_of_different_instants_differ :
  forall (t1 t2 : Z) (r1 r2 : string),
    eightDigits t1 -> eightDigits t2 -> t1 <> t2 ->
    String.length (JsString.toString36 t1) = 8%nat /\
    (JsString.toString36 t1 ++ r1 <> JsString.toString36 t2 ++ r2)%string.
Proof.
  intros t1 t2 r1 r2 H1 H2 Hne.
  split; [apply toString36_eightDigits, H1|].
  apply ids_of_different_instants; assumption.
Qed.

End IdProperties.

Section IdInvariant.

Variable clock : nat -> Z.
Variable random : nat -> string.

Lemma born_select (R : string -> nat -> Prop) (P : nat -> Prop)
  (f : string -> bool) (ids : list string) (ks : list nat) :
  Forall2 R ids ks -> NoDup ks -> Forall P ks ->
  exists ks', NoDup ks' /\ Forall P ks' /\ Forall2 R (filter f ids) ks' /\
              (forall k, In k ks' -> In k ks).
Proof.
  intros H. induction H as [|i k ids ks Hik _ IH]; intros Hnd HP.
  - exists []. split; [constructor|]. split; [constructor|].
    split; [constructor|]. intros k [].
  - inversion Hnd as [|k0 ks0 Hnotin Hnd']; subst.
    inversion HP as [|k0 ks0 Hk HP']; subst.
    destruct (IH Hnd' HP') as [ks' [Hnd'' [HP'' [Hall Hsub]]]].
    simpl. destruct (f i).
    + exists (k :: ks'). repeat split.
      * constructor; [|exact Hnd'']. intros Hin. apply Hnotin, Hsub, Hin.
      * constructor; assumption.
      * constructor; assumption.
      * intros k0 [<-|Hin]; [left; reflexivity|right; apply Hsub, Hin].
    + exists ks'. repeat split; try assumption.
      intros k0 Hin. right. apply Hsub, Hin.
Qed.

Lemma born_distinct (R : string -> nat -> Prop) (P : nat -> Prop)
  (ids : list string) (ks : list nat) :
  (forall i1 k1 i2 k2, P k1 -> P k2 -> R i1 k1 -> R i2 k2 -> k1 <> k2 -> i1 <> i2) ->
  Forall2 R ids ks -> Forall P ks -> NoDup ks -> NoDup ids.
Proof.
  intros Hinj H. induction H as [|i k ids ks Hik Hrest IH]; intros HP Hnd.
  - constructor.
  - inversion Hnd as [|k0 ks0 Hnotin Hnd']; subst.
    inversion HP as [|k0 ks0 Hk HP']; subst.
    constructor; [|apply IH; assumption].
    intros Hin.
    destruct (Forall2_pick R ids ks i Hrest Hin) as [k' [Hk' Hik']].
    rewrite Forall_forall in HP'.
    apply (Hinj i k i k' Hk (HP' k' Hk') Hik Hik'); [|reflexivity].
    intros <-. contradiction.
Qed.

(** Every id of the list is the text of a clock reading made before, with
    some digits behind it, and no two ids come from the same reading. *)
Lemma step_ids_born (op : Op) (s : Store) (w : World) :
  (exists ks, NoDup ks /\ Forall (fun k => k < clockReads w)%nat ks /\
     Forall2 (fun i k => exists r, i = (JsString.toString36 (clock k) ++ r)%string)
             (map id (tasks s)) ks) ->
  exists ks, NoDup ks /\
     Forall (fun k => k < clockReads (snd (step clock random op s w)))%nat ks /\
     Forall2 (fun i k => exists r, i = (JsString.toString36 (clock k) ++ r)%string)
             (map id (tasks (fst (step clock random op s w)))) ks.
Proof.
  intros [ks [Hnd [Hlt Hall]]].
  destruct op as [d|d|i|i|t| | |q]; unfold step, ret; cbn [fst snd];
    try (exists ks; repeat split; assumption).
  - rewrite addTask_eq. cbn [fst snd tasks clockReads].
    exists (ks ++ [clockReads w]). split; [|split].
    + apply NoDup_app; [exact Hnd|repeat constructor; intros []|].
      intros k Hk [<-|[]]. rewrite Forall_forall in Hlt.
      specialize (Hlt _ Hk). lia.
    + apply Forall_app. split.
      * eapply Forall_impl; [|exact Hlt]. intros k Hk. simpl in Hk. lia.
      * repeat constructor. lia.
    + rewrite map_app. apply Forall2_app; [exact Hall|].
      repeat constructor. exists (random (randomDraws w)). reflexivity.
  - rewrite editTask_ids. exists ks. split; [exact Hnd|]. split; [|exact Hall].
    assert (Hc : (clockReads w <= clockReads (snd (editTask clock d s w)))%nat).
    { destruct (editingTask s) as [e|] eqn:He.
      - apply (editTask_spec clock d s e w He).
      - rewrite editTask_no_target by exact He. simpl. lia. }
    eapply Forall_impl; [|exact Hlt]. intros k Hk. simpl in Hk. lia.
  - rewrite deleteTask_ids.
    destruct (born_select _ (fun k => k < clockReads w)%nat
                (fun i0 => negb (String.eqb i0 i)) _ _ Hall Hnd Hlt)
      as [ks' [Hnd' [Hlt' [Hall' _]]]].
    exists ks'. repeat split; assumption.
  - rewrite toggleTaskComplete_ids. exists ks.
    split; [exact Hnd|]. split; [|exact Hall].
    pose proof (toggleTaskComplete_spec clock i s w) as [_ [_ [_ [Hc _]]]].
    eapply Forall_impl; [|exact Hlt]. intros k Hk. simpl in Hk. lia.
  - exists []. split; [constructor|]. split; constructor.
Qed.

Lemma reachable_ids_born (s : Store) (w : World) :
  reachable clock random s w ->
  exists ks, NoDup ks /\ Forall (fun k => k < clockReads w)%nat ks /\
    Forall2 (fun i k => exists r, i = (JsString.toString36 (clock k) ++ r)%string)
            (map id (tasks s)) ks.
Proof.
  induction 1 as [w|s w op s' w' _ IH Hstep].
  - exists []. split; [constructor|]. split; constructor.
  - pose proof (step_ids_born op s w IH) as H.
    rewrite Hstep in H. exact H.
Qed.

(** X15: in every store that a session reaches from the empty store, the
    ids are pairwise distinct, whatever [Math.random] returned, provided the
    clock readings made so far were strictly increasing and lay between
    1972 and 2059. *)
Theorem X15_ids_unique_under_a_ticking_clock :
  forall (s : Store) (w : World),
    (forall a b, (a < b < clockReads w)%nat -> (clock a < clock b)%Z) ->
    (forall k, (k < clockReads w)%nat -> eightDigits (clock k)) ->
    reachable clock random s w ->
    NoDup (map id (tasks s)).
Proof.
  intros s w Hstrict Hrange Hreach.
  destruct (reachable_ids_born s w Hreach) as [ks [Hnd [Hlt Hall]]].
  eapply born_distinct; [|exact Hall|exact Hlt|exact Hnd].
  intros i1 k1 i2 k2 Hk1 Hk2 [r1 ->] [r2 ->] Hne. simpl in Hk1, Hk2.
  apply ids_of_different_instants; try (apply Hrange; assumption).
  destruct (Nat.lt_total k1 k2) as [Hlt12|[Heq|Hgt]]; [|contradiction|].
  - pose proof (Hstrict k1 k2 (conj Hlt12 Hk2)). lia.
  - pose proof (Hstrict k2 k1 (conj Hgt Hk1)). lia.
Qed.

End IdInvariant.

(** ** Keyboard shortcuts *)

Section KeyboardProperties.

Import Keyboard.

Variable Handler : Type.

(** X16: none of the task shortcuts fires while Shift or Alt is held,
    whatever the key and whichever callbacks are given; the default action
    of the browser is not prevented either. *)
Theorem X16_no_task_shortcut_with_shift_or_alt :
  forall (onNewTask onEscape onSearch onSave : option Handler)
         (event : KeyboardEvent),
    shiftKey event || altKey event = true ->
    useTaskShortcuts onNewTask onEscape onSearch onSave event = Ignored.
Proof.
  intros a b c d [ctrl meta shift alt k] Hmod. simpl in Hmod.
  unfold useTaskShortcuts, useKeyboardShortcuts, handleKeyDown, combination.
  cbn [ctrlKey metaKey shiftKey altKey key].
  destruct ctrl, meta, shift, alt; try discriminate Hmod;
    destruct a, b, c, d; reflexivity.
Qed.

Lemma ctrl_shortcuts (a b c d : option Handler) (event : KeyboardEvent) :
  ctrlPress event = true ->
  useTaskShortcuts a b c d event
  = if String.eqb "n" (JsString.toLowerCase (key event))
    then ranIfGiven a
    else if String.eqb "f" (JsString.toLowerCase (key event))
         then ranIfGiven c
         else if String.eqb "s" (JsString.toLowerCase (key event))
              then ranIfGiven d
              else Ignored.
Proof.
  destruct event as [ctrl meta shift alt k]. intros Hmod.
  unfold ctrlPress in Hmod. simpl in Hmod.
  unfold useTaskShortcuts, useKeyboardShortcuts, handleKeyDown, combination.
  cbn [ctrlKey metaKey shiftKey altKey key].
  assert (Hcm : ctrl || meta = true /\ shift = false /\ alt = false).
  { destruct ctrl, meta, shift, alt; try discriminate Hmod; repeat split. }
  destruct Hcm as [Hcm [-> ->]]. rewrite Hcm.
  generalize (JsString.toLowerCase k) as lk. intros lk.
  destruct (String.eqb_spec "n" lk) as [<-|Hn].
  - destruct a, b, c, d; reflexivity.
  - destruct (String.eqb_spec "f" lk) as [<-|Hf].
    + destruct a, b, c, d; reflexivity.
    + destruct (String.eqb_spec "s" lk) as [<-|Hs].
      * destruct a, b, c, d; reflexivity.
      * apply String.eqb_neq in Hn, Hf, Hs. simpl in Hn, Hf, Hs.
        destruct a, b, c, d; unfold getProperty; simpl;
          rewrite ?Hn, ?Hf, ?Hs; reflexivity.
Qed.

(** X17: with Ctrl or Meta and no other modifier, the key alone decides:
    "n" runs [onNewTask], "f" runs [onSearch], "s" runs [onSave], in either
    letter case and only if the callback was given; every other key is
    ignored. *)
Theorem X17_ctrl_shortcuts :
  forall (onNewTask onEscape onSearch onSave : option Handler)
         (event : KeyboardEvent),
    ctrlPress event = true ->
    useTaskShortcuts onNewTask onEscape onSearch onSave event
    = if String.eqb "n" (JsString.toLowerCase (key event))
      then ranIfGiven onNewTask
      else if String.eqb "f" (JsString.toLowerCase (key event))
           then ranIfGiven onSearch
           else if String.eqb "s" (JsString.toLowerCase (key event))
                then ranIfGiven onSave
                else Ignored.
Proof.
  intros a b c d event. apply ctrl_shortcuts.
Qed.

Lemma toLowerCase_length (s : string) :
  String.length (JsString.toLowerCase s) = String.length s.
Proof. induction s as [|c s IH]; simpl; [reflexivity|]. rewrite IH. reflexivity. Qed.

Lemma plain_escape (a b c d : option Handler) (event : KeyboardEvent) :
  plainPress event = true ->
  JsString.toLowerCase (key event) = "escape" ->
  useTaskShortcuts a b c d event = ranIfGiven b.
Proof.
  destruct event as [ctrl meta shift alt k]. intros Hmod.
  unfold plainPress in Hmod. simpl in Hmod.
  assert (Hcm : ctrl || meta = false /\ shift = false /\ alt = false).
  { destruct ctrl, meta, shift, alt; try discriminate Hmod; repeat split. }
  destruct Hcm as [Hcm [-> ->]].
  unfold useTaskShortcuts, useKeyboardShortcuts, handleKeyDown, combination.
  cbn [ctrlKey metaKey shiftKey altKey key]. rewrite Hcm. simpl join.
  intros ->. destruct a, b, c, d; reflexivity.
Qed.

(** X18: without any modifier, Escape runs [onEscape] if it was given, and
    a key that is a single character, as produced by typing, is ignored:
    typing text never triggers a task shortcut. *)
Theorem X18_plain_keys :
  forall (onNewTask onEscape onSearch onSave : option Handler)
         (event : KeyboardEvent),
    plainPress event = true ->
    (JsString.toLowerCase (key event) = "escape" ->
     useTaskShortcuts onNewTask onEscape onSearch onSave event
     = ranIfGiven onEscape) /\
    (String.length (key event) = 1%nat ->
     useTaskShortcuts onNewTask onEscape onSearch onSave event = Ignored).
Proof.
  intros a b c d [ctrl meta shift alt k] Hmod.
  unfold plainPress in Hmod. simpl in Hmod.
  assert (Hcm : ctrl || meta = false /\ shift = false /\ alt = false).
  { destruct ctrl, meta, shift, alt; try discriminate Hmod; repeat split. }
  destruct Hcm as [Hcm [-> ->]].
  unfold useTaskShortcuts, useKeyboardShortcuts, handleKeyDown, combination.
  cbn [ctrlKey metaKey shiftKey altKey key]. rewrite Hcm. simpl join.
  split.
  - intros ->. destruct a, b, c, d; reflexivity.
  - intros Hlen. rewrite <- toLowerCase_length in Hlen.
    destruct (JsString.toLowerCase k) as [|x [|y r]]; try discriminate Hlen.
    destruct a, b, c, d; unfold getProperty;
      match goal with
      | |- context [taskShortcuts ?a ?b ?c ?d] =>
          let sc := eval vm_compute in (taskShortcuts a b c d) in
          change (taskShortcuts a b c d) with sc
      end;
      repeat (cbn -[Ascii.eqb];
              match goal with
              | |- context [Ascii.eqb ?u ?v] => destruct (Ascii.eqb u v)
              end);
      reflexivity.
Qed.

Lemma ownProperty_setProperty (shortcuts : KeyboardShortcuts Handler)
  (n name : string) (h x : Handler) :
  ownProperty (setProperty shortcuts n h) name = Some x ->
  x = h \/ ownProperty shortcuts name = Some x.
Proof.
  induction shortcuts as [|[k h0] rest IH]; simpl.
  - destruct (String.eqb n name); [|discriminate].
    intros H. injection H as <-. left. reflexivity.
  - destruct (String.eqb k n); simpl.
    + destruct (String.eqb k name).
      * intros H. injection H as <-. left. reflexivity.
      * intros H. right. exact H.
    + destruct (String.eqb k name).
      * intros H. right. exact H.
      * exact IH.
Qed.

Lemma ownProperty_setIfGiven (shortcuts : KeyboardShortcuts Handler)
  (n name : string) (callback : option Handler) (x : Handler) :
  ownProperty (setIfGiven shortcuts n callback) name = Some x ->
  Some x = callback \/ ownProperty shortcuts name = Some x.
Proof.
  destruct callback as [h|]; simpl.
  - intros H. apply ownProperty_setProperty in H.
    destruct H as [->|H]; [left; reflexivity|right; exact H].
  - intros H. right. exact H.
Qed.

Lemma taskShortcuts_own (a b c d : option Handler) (name : string) (h : Handler) :
  ownProperty (taskShortcuts a b c d) name = Some h ->
  Some h = a \/ Some h = b \/ Some h = c \/ Some h = d.
Proof.
  unfold taskShortcuts. intros H.
  apply ownProperty_setIfGiven in H. destruct H as [H|H]; [auto|].
  apply ownProperty_setIfGiven in H. destruct H as [H|H]; [auto|].
  apply ownProperty_setIfGiven in H. destruct H as [H|H]; [auto|].
  apply ownProperty_setIfGiven in H. destruct H as [H|H]; [auto|].
  discriminate H.
Qed.

End KeyboardProperties.

(** ** The page *)

Section PageProperties.

Import Keyboard Page.

Variable clock : nat -> Z.
Variable random : nat -> string.

(** X19: the keyboard-shortcut listener of the page (the [keydown]
    listener that [useTaskShortcuts] puts on the document) changes neither
    the task list nor the search query, whatever key is pressed: it only
    shows or hides the form and, when it does, stops the editing. *)
Theorem X19_shortcut_listener_never_touches_the_tasks :
  forall (event : KeyboardEvent) (p p' : State),
    keyDown event p = Some p' ->
    tasks (store p') = tasks (store p) /\
    searchQuery (store p') = searchQuery (store p) /\
    (editingTask (store p') = editingTask (store p)
     \/ editingTask (store p') = None).
Proof.
  intros event p p'. unfold keyDown, useTaskShortcuts, useKeyboardShortcuts,
    handleKeyDown, getProperty.
  destruct (ownProperty _ (combination event)) as [h|] eqn:Hown.
  - apply taskShortcuts_own in Hown.
    intros H. injection H as <-.
    destruct Hown as [H|[H|[H|H]]]; try discriminate H; injection H as ->.
    + unfold onNewTask. destruct (showForm p); simpl; auto.
    + unfold onEscape. destruct (showForm p); simpl; auto.
    + unfold onSearch. auto.
  - destruct (String.eqb (combination event) "constructor").
    + intros H. injection H as <-. auto.
    + destruct (String.eqb (combination event) "__proto__").
      * discriminate.
      * intros H. injection H as <-. auto.
Qed.

(** X20: Escape closes an open form and stops the editing, and does nothing
    when the form is closed; Ctrl+N or Cmd+N opens a closed form for a new
    task (nothing is being edited afterwards) and does nothing when the form
    is already open. *)
Theorem X20_escape_and_new_task :
  forall (event : KeyboardEvent) (p : State),
    (plainPress event = true ->
     JsString.toLowerCase (key event) = "escape" ->
     keyDown event p
     = Some (if showForm p then mkState false (cancelEditing (store p)) else p)) /\
    (ctrlPress event = true ->
     JsString.toLowerCase (key event) = "n" ->
     keyDown event p
     = Some (if showForm p then p else mkState true (cancelEditing (store p)))).
Proof.
  intros event p. unfold keyDown. split.
  - intros Hmod Hkey.
    rewrite (plain_escape _ (Some onNewTask) (Some onEscape) (Some onSearch) None
               event Hmod Hkey). simpl. unfold onEscape, handleCancelForm.
    destruct (showForm p); reflexivity.
  - intros Hmod Hkey.
    rewrite (ctrl_shortcuts _ (Some onNewTask) (Some onEscape) (Some onSearch) None
               event Hmod).
    rewrite Hkey. simpl. unfold onNewTask.
    destruct (showForm p); reflexivity.
Qed.

(** X21: submitting the form always closes it and leaves nothing being
    edited.  When no task was being edited, the submission appends one task
    built from the data; when one was, the list keeps its ids and its
    length. *)
Theorem X21_form_submission :
  forall (formData : TaskFormData) (p : State) (w : World),
    let r := onSubmit clock random formData p w in
    showForm (fst r) = false /\
    editingTask (store (fst r)) = None /\
    searchQuery (store (fst r)) = searchQuery (store p) /\
    (editingTask (store p) = None ->
     tasks (store (fst r))
     = tasks (store p)
       ++ [newTaskAt clock random (clockReads w) (randomDraws w) formData]) /\
    (editingTask (store p) <> None ->
     map id (tasks (store (fst r))) = map id (tasks (store p))).
Proof.
  intros formData p w r. unfold r, onSubmit.
  destruct (editingTask (store p)) as [e|] eqn:He.
  - unfold handleEditTask, bind.
    pose proof (editTask_spec clock formData (store p) e w He)
      as [Hed [Hq _]].
    pose proof (editTask_ids clock formData (store p) w) as Hids.
    destruct (editTask clock formData (store p) w) as [s' w']; simpl in *.
    split; [reflexivity|]. split; [exact Hed|]. split; [exact Hq|].
    split; [intros Hnone; discriminate Hnone|intros _; exact Hids].
  - unfold handleAddTask, bind. rewrite addTask_eq. simpl.
    split; [reflexivity|]. split; [exact He|]. split; [reflexivity|].
    split; [reflexivity|intros Hsome; contradiction].
Qed.

End PageProperties.

(** ** The task form *)

Section FormProperties.

Import TaskForm.

Lemma trimStart_length (s : string) :
  (String.length (JsString.trimStart s) <= String.length s)%nat.
Proof.
  induction s as [|c s IH]; simpl; [lia|].
  destruct (JsString.isWhiteSpace c); simpl; lia.
Qed.

Lemma trimEnd_length (s : string) :
  (String.length (JsString.trimEnd s) <= String.length s)%nat.
Proof.
  induction s as [|c s IH]; simpl; [lia|].
  destruct (JsString.trimEnd s) as [|c' r]; simpl in *.
  - destruct (JsString.isWhiteSpace c); simpl; lia.
  - lia.
Qed.

Lemma trim_length (s : string) :
  (String.length (JsString.trim s) <= String.length s)%nat.
Proof.
  unfold JsString.trim.
  pose proof (trimEnd_length (JsString.trimStart s)).
  pose proof (trimStart_length s). lia.
Qed.

Lemma trimStart_firstChar (s : string) (c : ascii) :
  firstChar (JsString.trimStart s) = Some c -> JsString.isWhiteSpace c = false.
Proof.
  induction s as [|x s IH]; simpl; [discriminate|].
  destruct (JsString.isWhiteSpace x) eqn:E; [exact IH|].
  simpl. intros H. injection H as <-. exact E.
Qed.

Lemma trimEnd_firstChar (s : string) (c : ascii) :
  firstChar (JsString.trimEnd s) = Some c -> firstChar s = Some c.
Proof.
  destruct s as [|x s]; simpl; [discriminate|].
  destruct (JsString.trimEnd s) as [|c' r]; simpl.
  - destruct (JsString.isWhiteSpace x); simpl; [discriminate|]. intros H; exact H.
  - intros H; exact H.
Qed.

Lemma trimEnd_lastChar (s : string) (c : ascii) :
  lastChar (JsString.trimEnd s) = Some c -> JsString.isWhiteSpace c = false.
Proof.
  induction s as [|x s IH]; simpl; [discriminate|].
  destruct (JsString.trimEnd s) as [|c' r].
  - destruct (JsString.isWhiteSpace x) eqn:E; simpl; [discriminate|].
    intros H. injection H as <-. exact E.
  - exact IH.
Qed.

Lemma trim_allWhiteSpace (s : string) :
  allWhiteSpace s = true -> JsString.trim s = EmptyString.
Proof.
  intros Hws. unfold JsString.trim.
  pose proof (trimEnd_empty (JsString.trimStart s)) as H.
  rewrite allWhiteSpace_trimStart, Hws in H. simpl in H.
  destruct (JsString.trimEnd (JsString.trimStart s)); [reflexivity|discriminate H].
Qed.

Lemma taskSchema_valid_iff (v : FieldValues) (data : TaskFormData) :
  taskSchema v = Valid data
  <-> ((1 <= String.length (fieldTitle v) <= 100)%nat /\
       (forall d, fieldDescription v = Some d -> (String.length d <= 500)%nat) /\
       (forall ms, fieldDueDate v <> Some (IsoString ms)) /\
       data = mkForm (JsString.trim (fieldTitle v)) (fieldDescription v)
                     (fieldPriority v) (fieldDueDate v)).
Proof.
  destruct v as [t d p due].
  unfold taskSchema, checkTitle, checkDescription, checkDueDate.
  cbn [fieldTitle fieldDescription fieldPriority fieldDueDate].
  destruct (Nat.ltb_spec (String.length t) 1) as [Hmin|Hmin];
    destruct (Nat.ltb_spec 100 (String.length t)) as [Hmax|Hmax];
    (destruct d as [d|];
     [destruct (Nat.leb_spec (String.length d) 500) as [Hd|Hd];
      [|destruct (String.eqb_spec d EmptyString) as [Hde|Hde]]|]);
    destruct due as [[ms|ms]|]; cbn [app];
    (split;
     [ intros H; try discriminate H; injection H as <-;
       try (subst d; simpl in Hd; lia);
       repeat split; try lia;
       intros x H0; try discriminate H0; try (injection H0 as <-; lia)
     | intros [Hlen [Hdesc [Hdue Hdata]]]; try lia;
       try (exfalso; apply (Hdue ms); reflexivity);
       try (specialize (Hdesc d eq_refl); subst; simpl in *; lia);
       subst data; reflexivity ]).
Qed.

(** X22: the form data that pass validation have a title of at most 100
    characters that neither begins nor ends with white space, a description
    of at most 500 characters when there is one, and a due date that is a
    [Date] object when there is one. *)
Theorem X22_validated_form_data :
  forall (v : FieldValues) (data : TaskFormData),
    taskSchema v = Valid data ->
    (String.length (formTitle data) <= 100)%nat /\
    (forall c, firstChar (formTitle data) = Some c ->
               JsString.isWhiteSpace c = false) /\
    (forall c, lastChar (formTitle data) = Some c ->
               JsString.isWhiteSpace c = false) /\
    (forall d, formDescription data = Some d -> (String.length d <= 500)%nat) /\
    (forall d, formDueDate data = Some d -> exists ms, d = DateObj ms) /\
    formPriority data = fieldPriority v.
Proof.
  intros v data H. apply taskSchema_valid_iff in H.
  destruct H as [Hlen [Hdesc [Hdue ->]]]. simpl.
  split; [pose proof (trim_length (fieldTitle v)); lia|].
  split; [|split; [|split; [|split]]].
  - intros c Hc. unfold JsString.trim in Hc.
    apply trimEnd_firstChar in Hc. apply (trimStart_firstChar _ _ Hc).
  - intros c Hc. unfold JsString.trim in Hc. apply (trimEnd_lastChar _ _ Hc).
  - exact Hdesc.
  - intros [ms|ms] Hd; [exists ms; reflexivity|].
    exfalso. apply (Hdue ms). exact Hd.
  - reflexivity.
Qed.

(** X23: validation does not keep empty titles out: a title made only of
    white space, one to a hundred characters long, passes the length checks
    as typed and is then trimmed to the empty title. *)
Theorem X23_blank_title_passes_as_empty :
  forall (v : FieldValues),
    allWhiteSpace (fieldTitle v) = true ->
    (1 <= String.length (fieldTitle v) <= 100)%nat ->
    (forall d, fieldDescription v = Some d -> (String.length d <= 500)%nat) ->
    (forall ms, fieldDueDate v <> Some (IsoString ms)) ->
    taskSchema v
    = Valid (mkForm EmptyString (fieldDescription v) (fieldPriority v)
                    (fieldDueDate v)).
Proof.
  intros v Hws Hlen Hdesc Hdue. apply taskSchema_valid_iff.
  repeat split; try lia; try assumption.
  rewrite (trim_allWhiteSpace _ Hws). reflexivity.
Qed.

(** X24: validation accepts the values of the form exactly when the title
    as typed has between 1 and 100 characters, the description, if any, has
    at most 500, and the due date, if any, is a [Date] object; the data
    handed on are then the trimmed title and the other three values
    unchanged. *)
Theorem X24_validation_accepts_iff :
  forall (v : FieldValues) (data : TaskFormData),
    taskSchema v = Valid data
    <-> ((1 <= String.length (fieldTitle v) <= 100)%nat /\
         (forall d, fieldDescription v = Some d -> (String.length d <= 500)%nat) /\
         (forall ms, fieldDueDate v <> Some (IsoString ms)) /\
         data = mkForm (JsString.trim (fieldTitle v)) (fieldDescription v)
                       (fieldPriority v) (fieldDueDate v)).
Proof. intros v data. apply taskSchema_valid_iff. Qed.

(** X25: a task whose due date is an ISO string, as a plain [JSON.parse]
    of the stored text leaves it, cannot be saved from the edit form while
    the due date is the one the form was opened with: whatever title,
    description and priority are entered, validation fails on the due date.  The form opened on a
    task always holds a description text, empty for a task without one. *)
Theorem X25_reloaded_due_date_blocks_the_edit :
  forall (t : Task) (ms : Z) (newTitle : string) (newDescription : option string)
         (newPriority : Priority),
    dueDate t = Some (IsoString ms) ->
    fieldDescription (defaultValues (Some t)) <> None /\
    exists issues,
      taskSchema (mkFieldValues newTitle newDescription newPriority
                                (fieldDueDate (defaultValues (Some t))))
      = Invalid issues /\
      In DueDateNotADate issues.
Proof.
  intros t ms newTitle newDescription newPriority Hdue.
  split; [simpl; discriminate|].
  unfold taskSchema.
  cbn [fieldTitle fieldDescription fieldPriority fieldDueDate defaultValues].
  rewrite Hdue.
  destruct (checkTitle newTitle) as [ti tv].
  destruct (checkDescription newDescription) as [di dv].
  cbn [checkDueDate].
  assert (Hin : In DueDateNotADate (ti ++ di ++ [DueDateNotADate])).
  { apply in_or_app. right. apply in_or_app. right. left. reflexivity. }
  destruct (ti ++ di ++ [DueDateNotADate]) as [|i l] eqn:El; [destruct Hin|].
  exists (i :: l). split; [reflexivity|exact Hin].
Qed.

End FormProperties.

(** ** The further properties on concrete inputs *)

Section MoreExamples.

Import Samples MoreSamples Keyboard.

Lemma X1_witness :
  allWhiteSpace "  " = true /\
  filteredTasks (setSearchQuery "  " twoTasks) = Ok [milkTask; mumTask].
Proof.
  split; [reflexivity|].
  apply (X1_whitespace_query_shows_all (setSearchQuery "  " twoTasks)).
  reflexivity.
Defined.

Lemma X2_witness :
  JsString.toLowerCase "MUM" = JsString.toLowerCase "mum" /\
  filteredTasks (mkStore [mumTask; taskOne] None "MUM")
  = filteredTasks (mkStore [mumTask; taskOne] None "mum").
Proof.
  split; [reflexivity|].
  apply (X2_search_ignores_case_of_query [mumTask; taskOne] None "MUM" "mum").
  reflexivity.
Defined.

Lemma X3_witness :
  blank "mum" = false /\
  filteredTasks (setSearchQuery "mum" twoTasks) = Throw_TypeError.
Proof.
  split; [reflexivity|].
  apply (X3_search_throws_iff (setSearchQuery "mum" twoTasks)); [reflexivity|].
  exists milkTask. split; [left; reflexivity|]. split; reflexivity.
Defined.

Lemma X4_witness :
  blank (searchQuery describedTasks) = false /\
  filteredTasks describedTasks = Ok [mumTask] /\
  [mumTask] = filter (matchesText "mum") (tasks describedTasks).
Proof.
  split; [reflexivity|]. split; [reflexivity|].
  apply (X4_search_result describedTasks [mumTask]); reflexivity.
Defined.

Lemma X5_witness :
  allDescribed emptyStore /\
  Forall suppliesDescription describedSession /\
  filteredTasks (setSearchQuery "SUNDAY"
                   (fst (run tickingClock freshDigits describedSession
                             emptyStore world0)))
  = Ok (tasks (fst (run tickingClock freshDigits describedSession
                        emptyStore world0))).
Proof.
  assert (H0 : allDescribed emptyStore) by (intros t []).
  assert (Hops : Forall suppliesDescription describedSession).
  { repeat constructor; simpl; discriminate. }
  split; [exact H0|]. split; [exact Hops|].
  pose proof (X5_search_safe_when_descriptions_supplied
                tickingClock freshDigits describedSession emptyStore world0
                "SUNDAY" H0 Hops) as H.
  cbv zeta in H. destruct H as [_ H]. rewrite H. reflexivity.
Defined.

Lemma X8_witness :
  id staleMilk = id milkTask /\
  editTask tickingClock callMum (startEditingTask staleMilk twoTasks) world0
  = editTask tickingClock callMum (startEditingTask milkTask twoTasks) world0.
Proof.
  split; [reflexivity|].
  apply (X8_editTask_resolves_by_id tickingClock callMum twoTasks
           staleMilk milkTask world0).
  reflexivity.
Defined.

Lemma X9_witness :
  NoDup (map id (tasks twoTasks)) /\
  NoDup (map id (tasks (deleteTask "1" twoTasks))).
Proof.
  assert (Hnd : NoDup (map id (tasks twoTasks))).
  { simpl. repeat constructor; simpl; intuition discriminate. }
  split; [exact Hnd|].
  destruct (X9_deleteTask_leaves_no_such_id "1" twoTasks) as [_ [Hkeep _]].
  apply Hkeep. exact Hnd.
Defined.

Lemma X11_witness :
  ~ In "loyw3v28rs" (map id (tasks twoTasks)) /\
  tasks (deleteTask "loyw3v28rs"
           (fst (addTask tickingClock freshDigits buyMilk twoTasks world0)))
  = tasks twoTasks.
Proof.
  assert (Hfresh : ~ In "loyw3v28rs" (map id (tasks twoTasks))).
  { simpl. intuition discriminate. }
  split; [exact Hfresh|].
  pose proof (X11_add_then_delete tickingClock freshDigits buyMilk twoTasks
                world0) as H.
  cbv zeta in H. apply H. exact Hfresh.
Defined.

Lemma X12_witness :
  (forall k, frozenClock k = session0) /\
  overdue (fst (taskStats frozenClock twoTasks world0))
  = Z.of_nat (countIf (fun t => fst (TaskCard.isOverdue frozenClock t world0))
                      (tasks twoTasks)).
Proof.
  split; [intros k; reflexivity|].
  apply (X12_overdue_counter_matches_badges frozenClock twoTasks session0
           world0 (fun _ => world0)).
  intros k. reflexivity.
Defined.

Lemma X13_witness :
  (0 <= session0)%Z /\ (0 <= 35)%Z /\
  valueOf36 0 (JsString.toString36 session0) = Z.to_N session0.
Proof.
  assert (H1 : (0 <= session0)%Z) by (unfold session0; lia).
  assert (H2 : (0 <= 35)%Z) by lia.
  split; [exact H1|]. split; [exact H2|].
  exact (proj1 (X13_toString36_round_trip session0 35 H1 H2)).
Defined.

Lemma X14_witness :
  eightDigits session0 /\ eightDigits (session0 + 1) /\
  (JsString.toString36 session0 ++ "zz"
   <> JsString.toString36 (session0 + 1) ++ "zz")%string.
Proof.
  assert (H1 : eightDigits session0) by (unfold eightDigits, session0; lia).
  assert (H2 : eightDigits (session0 + 1)) by (unfold eightDigits, session0; lia).
  split; [exact H1|]. split; [exact H2|].
  apply (X14_ids_of_different_instants_differ session0 (session0 + 1) "zz" "zz"
           H1 H2).
  lia.
Defined.

Lemma X15_witness :
  NoDup (map id (tasks (fst (run tickingClock sameDigits shortSession
                                 emptyStore world0)))).
Proof.
  apply (X15_ids_unique_under_a_ticking_clock tickingClock sameDigits _
           (snd (run tickingClock sameDigits shortSession emptyStore world0))).
  - intros a b Hab. unfold tickingClock. lia.
  - intros k Hk.
    assert (Hn : clockReads (snd (run tickingClock sameDigits shortSession
                                      emptyStore world0)) = 6%nat)
      by (vm_compute; reflexivity).
    rewrite Hn in Hk. unfold eightDigits, tickingClock, session0. lia.
  - apply reachable_run. apply reachable_init.
Defined.

Lemma X16_witness :
  shiftKey cmdShiftN || altKey cmdShiftN = true /\
  useTaskShortcuts (Some 1%nat) (Some 2%nat) (Some 3%nat) (Some 4%nat) cmdShiftN
  = Ignored.
Proof.
  split; [reflexivity|].
  apply (X16_no_task_shortcut_with_shift_or_alt nat). reflexivity.
Defined.

Lemma X17_witness :
  ctrlPress ctrlN = true /\
  useTaskShortcuts (Some 1%nat) (Some 2%nat) (Some 3%nat) None ctrlN = Ran 1%nat.
Proof.
  split; [reflexivity|].
  rewrite (X17_ctrl_shortcuts nat (Some 1%nat) (Some 2%nat) (Some 3%nat) None
             ctrlN eq_refl).
  reflexivity.
Defined.

Lemma X18_witness :
  plainPress escape = true /\
  useTaskShortcuts (Some 1%nat) (Some 2%nat) (Some 3%nat) None escape = Ran 2%nat /\
  useTaskShortcuts (Some 1%nat) (Some 2%nat) (Some 3%nat) None
                   (mkKeyboardEvent false false false false "n") = Ignored.
Proof.
  split; [reflexivity|]. split.
  - destruct (X18_plain_keys nat (Some 1%nat) (Some 2%nat) (Some 3%nat) None
                escape eq_refl) as [Hesc _].
    apply Hesc. reflexivity.
  - destruct (X18_plain_keys nat (Some 1%nat) (Some 2%nat) (Some 3%nat) None
                (mkKeyboardEvent false false false false "n") eq_refl)
      as [_ Hchar].
    apply Hchar. reflexivity.
Defined.

Lemma X19_witness :
  Page.keyDown escape editingMilk = Some (Page.mkState false twoTasks) /\
  tasks (Page.store (Page.mkState false twoTasks))
  = tasks (Page.store editingMilk).
Proof.
  split; [reflexivity|].
  apply (X19_shortcut_listener_never_touches_the_tasks escape editingMilk
           (Page.mkState false twoTasks)).
  reflexivity.
Defined.

Lemma X20_witness :
  Page.keyDown escape editingMilk = Some (Page.mkState false twoTasks) /\
  Page.keyDown ctrlN (Page.mkState false (startEditingTask milkTask twoTasks))
  = Some (Page.mkState true twoTasks).
Proof.
  split.
  - destruct (X20_escape_and_new_task escape editingMilk) as [Hesc _].
    rewrite Hesc; reflexivity.
  - destruct (X20_escape_and_new_task ctrlN
                (Page.mkState false (startEditingTask milkTask twoTasks)))
      as [_ Hnew].
    rewrite Hnew; reflexivity.
Defined.

Lemma X21_witness :
  editingTask (Page.store editingMilk) <> None /\
  map id (tasks (Page.store
                   (fst (Page.onSubmit tickingClock freshDigits callMum
                                       editingMilk world0))))
  = map id (tasks twoTasks).
Proof.
  assert (Hed : editingTask (Page.store editingMilk) <> None)
    by (simpl; discriminate).
  split; [exact Hed|].
  pose proof (X21_form_submission tickingClock freshDigits callMum editingMilk
                world0) as H.
  cbv zeta in H. destruct H as [_ [_ [_ [_ Hids]]]].
  apply Hids. exact Hed.
Defined.

Lemma X22_witness :
  TaskForm.taskSchema milkFields
  = TaskForm.Valid (mkForm "Buy milk" (Some "semi-skimmed") low
                           (Some (DateObj 1700003600000))) /\
  (String.length "Buy milk" <= 100)%nat.
Proof.
  split; [reflexivity|].
  exact (proj1 (X22_validated_form_data milkFields
                  (mkForm "Buy milk" (Some "semi-skimmed") low
                          (Some (DateObj 1700003600000)))
                  eq_refl)).
Defined.

Lemma X23_witness :
  allWhiteSpace (TaskForm.fieldTitle spaces) = true /\
  TaskForm.taskSchema spaces = TaskForm.Valid (mkForm "" (Some "") low None).
Proof.
  split; [reflexivity|].
  apply (X23_blank_title_passes_as_empty spaces).
  - reflexivity.
  - simpl. lia.
  - intros d H. injection H as <-. simpl. lia.
  - intros ms H. discriminate H.
Defined.

Lemma X24_witness :
  TaskForm.taskSchema milkFields
  = TaskForm.Valid (mkForm "Buy milk" (Some "semi-skimmed") low
                           (Some (DateObj 1700003600000))).
Proof.
  apply (X24_validation_accepts_iff milkFields).
  split; [simpl; lia|]. split; [|split].
  - intros d H. injection H as <-. simpl. lia.
  - intros ms H. discriminate H.
  - reflexivity.
Defined.

Lemma X25_witness :
  dueDate reloadedMum = Some (IsoString 1699990000000) /\
  exists issues,
    TaskForm.taskSchema
      (TaskForm.mkFieldValues "Call mum today" (Some "before Sunday") high
         (TaskForm.fieldDueDate (TaskForm.defaultValues (Some reloadedMum))))
    = TaskForm.Invalid issues /\
    In TaskForm.DueDateNotADate issues.
Proof.
  split; [reflexivity|].
  exact (proj2 (X25_reloaded_due_date_blocks_the_edit reloadedMum 1699990000000
                  "Call mum today" (Some "before Sunday") high eq_refl)).
Defined.

End MoreExamples.

(** ** The statistics view and its memo *)

Section StatsView.

Variable clock : nat -> Z.
Variable random : nat -> string.









(** A render in which [tasks] is the array of the last computation returns
    what that computation returned. *)
Lemma useMemoTaskStats_kept (h : Instance) (w : World) (m : StatsMemo) :
  statsMemo h = Some m -> memoDeps m = tasksRef h ->
  useMemoTaskStats clock h w = (h, w).
Proof.
  intros Hm Hd. unfold useMemoTaskStats. rewrite Hm, Hd, Nat.eqb_refl.
  reflexivity.
Qed.

End StatsView.

(** ** Sequences of [addTask] and the ids they generate *)

Section AddSequences.

Variable clock : nat -> Z.
Variable random : nat -> string.

Lemma string_app_cancel_l (a r1 r2 : string) :
  (a ++ r1 = a ++ r2)%string -> r1 = r2.
Proof.
  induction a as [|x a IH]; simpl; intros Heq; [exact Heq|].
  injection Heq as Heq. exact (IH Heq).
Qed.

(** With eight digits of time, an id determines both the millisecond and
    the random digits it was made of. *)
Lemma stampId_injective (p q : Z * string) :
  eightDigits (fst p) -> eightDigits (fst q) ->
  stampId p = stampId q -> p = q.
Proof.
  destruct p as [t1 r1], q as [t2 r2]. unfold stampId. cbn [fst snd].
  intros H1 H2 Heq.
  assert (Ht : JsString.toString36 t1 = JsString.toString36 t2).
  { apply (string_app_same_length _ _ r1 r2); [|exact Heq].
    rewrite !toString36_eightDigits by assumption. reflexivity. }
  rewrite Ht in Heq. apply string_app_cancel_l in Heq.
  destruct H1 as [H1 _], H2 as [H2 _].
  apply toString36_injective in Ht; [|lia|lia].
  subst. reflexivity.
Qed.

Lemma NoDup_app_split {A} (l l' : list A) :
  NoDup (l ++ l') <->
  NoDup l /\ NoDup l' /\ (forall a, In a l -> ~ In a l').
Proof.
  induction l as [|x l IH]; simpl.
  - split.
    + intros H. split; [constructor|]. split; [exact H|]. intros a [].
    + intros [_ [H _]]. exact H.
  - rewrite !NoDup_cons_iff, IH, in_app_iff. split.
    + intros [Hx [Hl [Hl' Hd]]]. split; [split|split].
      * intros Hin. apply Hx. left. exact Hin.
      * exact Hl.
      * exact Hl'.
      * intros b [<-|Hb] Hb'.
        -- apply Hx. right. exact Hb'.
        -- exact (Hd b Hb Hb').
    + intros [[Hx Hl] [Hl' Hd]]. split; [|split; [|split]].
      * intros [Hin|Hin]; [exact (Hx Hin)|].
        exact (Hd x (or_introl eq_refl) Hin).
      * exact Hl.
      * exact Hl'.
      * intros b Hb. apply Hd. right. exact Hb.
Qed.

Lemma NoDup_map_injective_on {A B} (f : A -> B) (l : list A) :
  (forall x y, In x l -> In y l -> f x = f y -> x = y) ->
  NoDup l -> NoDup (map f l).
Proof.
  intros Hinj Hl. induction Hl as [|x l Hx _ IH]; simpl; [constructor|].
  constructor.
  - intros Hin. apply in_map_iff in Hin. destruct Hin as [y [Hfy Hy]].
    assert (y = x) as ->.
    { apply Hinj; [right; exact Hy|left; reflexivity|exact Hfy]. }
    exact (Hx Hy).
  - apply IH. intros a b Ha Hb. apply Hinj; right; assumption.
Qed.

Lemma addedTasks_ids (ds : list TaskFormData) :
  forall c r,
    map id (addedTasks clock random c r ds)
    = map stampId (idStamps clock random c r (List.length ds)).
Proof.
  induction ds as [|d ds IH]; intros c r; [reflexivity|].
  cbn [addedTasks idStamps List.length map]. rewrite IH. reflexivity.
Qed.

(** C3 (amended): [n] calls of [addTask] from any state append [n] tasks,
    one per call and in the order of the calls; each has
    [completed = false], carries the title, description, priority and due
    date of its argument, an id made of the base-36 text of a clock reading
    followed by the random digits drawn by the call, and as [createdAt] and
    [updatedAt] the next two clock readings, which are the same instant when
    the clock does not tick between them.  While the clock readings that go
    into the ids have eight base-36 digits, the new ids are pairwise
    distinct exactly when no two calls combine the same millisecond with the
    same random digits, and the ids of the resulting list are pairwise
    distinct exactly when, moreover, those of the starting list are and none
    of the new ids is among them. *)
Theorem C3_addTask_sequence :
  forall (ds : list TaskFormData) (s : Store) (w : World),
    let r := run clock random (map OpAddTask ds) s w in
    let added := addedTasks clock random (clockReads w) (randomDraws w) ds in
    let stamps :=
      idStamps clock random (clockReads w) (randomDraws w) (List.length ds) in
    tasks (fst r) = tasks s ++ added /\
    List.length (tasks (fst r)) = (List.length (tasks s) + List.length ds)%nat /\
    (exists digits,
        List.length digits = List.length ds /\
        Forall2 (fun dg t => addedBy clock (fst dg) (snd dg) (clockReads w)
                                     (clockReads (snd r)) t)
                (combine ds digits) added) /\
    (forall t, In t added ->
               clock (clockReads (snd r) - 1) = clock (clockReads w) ->
               nonDecreasing clock ->
               createdAt t = updatedAt t) /\
    (Forall (fun p => eightDigits (fst p)) stamps ->
     (NoDup (map id added) <-> NoDup stamps) /\
     (NoDup (map id (tasks (fst r))) <->
      NoDup (map id (tasks s)) /\
      NoDup stamps /\
      (forall t, In t added -> ~ In (id t) (map id (tasks s))))).
Proof.
  intros ds s w r added stamps. unfold r. rewrite run_addTasks.
  cbn [fst snd tasks clockReads]. fold added.
  split; [reflexivity|]. split; [|split; [|split]].
  - rewrite length_app. unfold added. rewrite addedTasks_length. reflexivity.
  - apply addedTasks_addedBy. lia.
  - intros t Ht Hfrozen Hmono.
    destruct (addedTasks_addedBy clock random ds (clockReads w) (randomDraws w)
                (clockReads w) (Nat.le_refl _)) as [digits [_ Hall]].
    fold added in Hall.
    assert (Hex : exists dg, addedBy clock (fst dg) (snd dg) (clockReads w)
                    (clockReads w + 3 * List.length ds) t).
    { clear -Hall Ht. induction Hall as [|dg t0 l1 l2 H0 _ IH].
      - destruct Ht.
      - destruct Ht as [<-|Ht]; [exists dg; exact H0|apply IH; exact Ht]. }
    destruct Hex as [dg [_ [_ [_ [_ [_ [k [Hk [_ [Hc Hu]]]]]]]]]].
    rewrite Hc, Hu. f_equal.
    assert (H1 : (clock (clockReads w) <= clock (k + 1))%Z) by (apply Hmono; lia).
    assert (H2 : (clock (k + 1) <= clock (k + 2))%Z) by (apply Hmono; lia).
    match type of Hfrozen with
    | clock ?last = _ =>
        assert (H3 : (clock (k + 2) <= clock last)%Z) by (apply Hmono; lia)
    end.
    lia.
  - intros Height.
    assert (Hadded : NoDup (map id added) <-> NoDup stamps).
    { unfold added, stamps. rewrite addedTasks_ids. split.
      - apply NoDup_map_inv.
      - apply NoDup_map_injective_on. intros p q Hp Hq.
        rewrite Forall_forall in Height.
        apply stampId_injective; apply Height; assumption. }
    split; [exact Hadded|].
    rewrite map_app, NoDup_app_split, Hadded. split.
    + intros [Hs [Hst Hd]]. split; [exact Hs|]. split; [exact Hst|].
      intros t Ht Hin. apply (Hd (id t) Hin). apply in_map. exact Ht.
    + intros [Hs [Hst Hd]]. split; [exact Hs|]. split; [exact Hst|].
      intros i Hi Hi'. apply in_map_iff in Hi'.
      destruct Hi' as [t [<- Ht]]. exact (Hd t Ht Hi).
Qed.

End AddSequences.

(** ** Persistence, id sequences and the statistics view at work *)

Section SessionExamples.

Import Samples MoreSamples DurableStore.

Lemma C2_witness :
  getItemThrows emptyStorage = false /\
  setItemThrows emptyStorage = false /\
  Forall holdsDateObjects [milkTask; mumTask] /\
  loadTasks (persistTasks emptyStorage [milkTask; mumTask])
  = [milkTask; mumTask] /\
  freshStore (persistTasks emptyStorage [milkTask; mumTask]) = twoTasks.
Proof.
  assert (Htyped : Forall holdsDateObjects [milkTask; mumTask]).
  { repeat constructor. }
  split; [reflexivity|]. split; [reflexivity|]. split; [exact Htyped|].
  exact (C2_persist_then_load emptyStorage [milkTask; mumTask]
           eq_refl eq_refl Htyped).
Defined.

Lemma C3_witness :
  Forall (fun p => eightDigits (fst p)) (idStamps tickingClock sameDigits 0 0 2) /\
  NoDup (idStamps tickingClock sameDigits 0 0 2) /\
  NoDup (map id (tasks twoTasks)) /\
  NoDup (map id (tasks (fst (run tickingClock sameDigits
                               (map OpAddTask [buyMilk; callMum])
                               twoTasks world0)))).
Proof.
  assert (Height : Forall (fun p => eightDigits (fst p))
                          (idStamps tickingClock sameDigits 0 0 2)).
  { repeat constructor; vm_compute; intros H; discriminate H. }
  assert (Hstamps : NoDup (idStamps tickingClock sameDigits 0 0 2)).
  { vm_compute. repeat constructor; simpl; intuition discriminate. }
  assert (Hstart : NoDup (map id (tasks twoTasks))).
  { simpl. repeat constructor; simpl; intuition discriminate. }
  split; [exact Height|]. split; [exact Hstamps|]. split; [exact Hstart|].
  pose proof (C3_addTask_sequence tickingClock sameDigits
                [buyMilk; callMum] twoTasks world0) as H.
  cbv zeta in H. destruct H as [_ [_ [_ [_ Hids]]]].
  destruct (Hids Height) as [_ Hall]. apply Hall.
  split; [exact Hstart|]. split; [exact Hstamps|].
  intros t Ht. vm_compute in Ht.
  destruct Ht as [<-|[<-|[]]]; vm_compute; intuition discriminate.
Defined.

(** C3 as stated fails.  Two calls in the same millisecond that draw the
    same random digits produce the same id.  A clock that ticks between the
    two [new Date()] of one call gives a task whose [createdAt] and
    [updatedAt] differ.  When the time has fewer digits, a different
    millisecond and different random digits can spell the same id: 1 and
    "i", 54 and no digit.  A list that already holds the id that the call
    generates ends with that id twice. *)
Lemma C3_counterexample :
  ~ NoDup (map id (tasks (fst (run frozenClock sameDigits
                                 (map OpAddTask [buyMilk; callMum])
                                 emptyStore world0)))) /\
  (exists t,
      tasks (fst (run tickAfterTwo sameDigits (map OpAddTask [buyMilk])
                      emptyStore world0)) = [t] /\
      createdAt t <> updatedAt t) /\
  (NoDup (idStamps earlyClock halfThenZero 0 0 2) /\
   ~ NoDup (map id (tasks (fst (run earlyClock halfThenZero
                                  (map OpAddTask [buyMilk; callMum])
                                  emptyStore world0))))) /\
  (NoDup (map id [sameIdTask]) /\
   ~ NoDup (map id (tasks (fst (run frozenClock sameDigits
                                  (map OpAddTask [buyMilk])
                                  (mkStore [sameIdTask] None EmptyString)
                                  world0))))).
Proof.
  split; [|split; [|split]].
  - intros H. vm_compute in H.
    inversion H as [|i l Hnotin _]. apply Hnotin. left. reflexivity.
  - eexists. split; [vm_compute; reflexivity|]. simpl. discriminate.
  - split.
    + vm_compute. repeat constructor; simpl; intuition discriminate.
    + intros H. vm_compute in H.
      inversion H as [|i l Hnotin _]. apply Hnotin. left. reflexivity.
  - split.
    + repeat constructor. intros [].
    + intros H. vm_compute in H.
      inversion H as [|i l Hnotin _]. apply Hnotin. left. reflexivity.
Qed.



End SessionExamples.
